(** * Supply-chain data integration: KPI pipeline, filters, rollups, ingestors

    A shallow embedding of the metric and ingestion code of the repository
    ([dashboard/app.py], [output.py], [main.py],
    [data_Ingestion/excel_ingestor.py], [data_Ingestion/api_ingestor.py] and
    the dashboard on generated data, [supply chain pro/output.py]) together
    with the pandas / numpy operations these scripts call.

    Conventions of the embedding
    - a pandas cell is an [option]: [None] is the missing marker (NaN / NaT);
    - a numeric cell is an exact rational; the result of a numpy scalar
      operation is a [float] below, which adds the three special values
      (rounding error and the sign of zero are not represented);
    - a timestamp is a day ordinal ([Z]); the data set carries calendar dates;
    - a frame is the list of its rows, in index order;
    - for the delimited text format ([Csv]) a frame is a table of typed
      cells, a timestamp is the calendar date the file spells, and lines end
      with a line feed. *)

From Stdlib Require Import String Ascii ZArith QArith Qround List Bool Lia.
From Stdlib Require Import Permutation Sorted DecimalString OrderedTypeEx.
Import ListNotations.

Local Open Scope Z_scope.

(** ** numpy scalars *)

Module Np.

(** A float64 result: a finite value or one of the IEEE special values. *)
Inductive float : Type :=
| Fin (q : Q)
| NaN
| PInf
| NInf.

(** Equality of results, up to the representation of the rational. *)
Definition feq (a b : float) : Prop :=
  match a, b with
  | Fin p, Fin q => (p == q)%Q
  | NaN, NaN | PInf, PInf | NInf, NInf => True
  | _, _ => False
  end.

Definition is_zero (q : Q) : bool := Qeq_bool q 0.
Definition is_neg (q : Q) : bool := negb (Qle_bool 0 q).

Definition inf_of_sign (negative : bool) : float :=
  if negative then NInf else PInf.

(** [a / b] on numpy scalars: a zero divisor does not raise, it gives
    [nan] (for 0/0) or a signed [inf]. *)
Definition div (a b : float) : float :=
  match a, b with
  | NaN, _ | _, NaN => NaN
  | Fin p, Fin q =>
      if is_zero q then
        (if is_zero p then NaN else inf_of_sign (is_neg p))
      else Fin (p / q)
  | Fin _, (PInf | NInf) => Fin 0
  | (PInf | NInf), (PInf | NInf) => NaN
  | PInf, Fin q => inf_of_sign (is_neg q)
  | NInf, Fin q => inf_of_sign (negb (is_neg q))
  end.

(** [a * b] on numpy scalars. *)
Definition mul (a b : float) : float :=
  match a, b with
  | NaN, _ | _, NaN => NaN
  | Fin p, Fin q => Fin (p * q)
  | Fin p, PInf | PInf, Fin p =>
      if is_zero p then NaN else inf_of_sign (is_neg p)
  | Fin p, NInf | NInf, Fin p =>
      if is_zero p then NaN else inf_of_sign (negb (is_neg p))
  | PInf, PInf | NInf, NInf => PInf
  | PInf, NInf | NInf, PInf => NInf
  end.

(** Round half to even, to an integer. *)
Definition rint (q : Q) : Z :=
  let f := Qfloor q in
  match (q - inject_Z f ?= 1 # 2)%Q with
  | Lt => f
  | Gt => f + 1
  | Eq => if Z.even f then f else f + 1
  end.

(** A rational rounded to one decimal. *)
Definition round_decimal (q : Q) : Q := (inject_Z (rint (q * 10)) / 10)%Q.

(** [round(x, 1)]: one decimal, special values unchanged. *)
Definition round1 (x : float) : float :=
  match x with
  | Fin q => Fin (round_decimal q)
  | s => s
  end.

Definition isnan (x : float) : bool :=
  match x with
  | NaN => true
  | _ => false
  end.

(** [a <= b] on values that are not [nan]. *)
Definition leb (a b : float) : bool :=
  match a, b with
  | NaN, _ | _, NaN => false
  | NInf, _ | _, PInf => true
  | Fin p, Fin q => Qle_bool p q
  | _, _ => false
  end.

End Np.

(** ** pandas Series *)

Module Pd.

Import Np.

(** A numeric column. *)
Definition series := list (option Q).

Fixpoint dropna {A : Type} (s : list (option A)) : list A :=
  match s with
  | [] => []
  | Some x :: s' => x :: dropna s'
  | None :: s' => dropna s'
  end.

Definition total (l : list Q) : Q := fold_right Qplus 0%Q l.

Definition count (s : series) : nat := length (dropna s).

(** [Series.sum()]: missing cells are skipped, the empty sum is 0. *)
Definition sum (s : series) : float := Fin (total (dropna s)).

Definition Qlen (l : list Q) : Q := inject_Z (Z.of_nat (length l)).

(** Mean of the values that are present; [nan] when there is none. *)
Definition mean_values (l : list Q) : float :=
  match l with
  | [] => NaN
  | _ => Fin (total l / Qlen l)
  end.

(** [Series.mean()]. *)
Definition mean (s : series) : float := mean_values (dropna s).

Fixpoint insert_sorted (x : Q) (l : list Q) : list Q :=
  match l with
  | [] => [x]
  | y :: l' => if Qle_bool x y then x :: l else y :: insert_sorted x l'
  end.

Definition sort_values (l : list Q) : list Q := fold_right insert_sorted [] l.

(** Median of the values that are present: the middle one of the sorted
    values, or the mean of the two middle ones. *)
Definition median_values (l : list Q) : float :=
  match l with
  | [] => NaN
  | _ =>
      let s := sort_values l in
      let n := length s in
      if Nat.even n
      then Fin ((nth (n / 2 - 1) s 0 + nth (n / 2) s 0) / 2)%Q
      else Fin (nth (n / 2) s 0%Q)
  end.

(** [Series.median()]. *)
Definition median (s : series) : float := median_values (dropna s).

(** The result of [Series.std()]: the square root of a variance, kept as
    its radicand, or [nan]. *)
Inductive deviation : Type :=
| SqrtOf (variance : Q)
| StdNaN.

(** [d] is the number [q]. *)
Definition deviation_is (d : deviation) (q : Q) : Prop :=
  match d with
  | SqrtOf v => (0 <= q)%Q /\ (v == q * q)%Q
  | StdNaN => False
  end.

Definition sq_dev (m x : Q) : Q := ((x - m) * (x - m))%Q.

(** Sample standard deviation ([ddof = 1]) of the values that are present:
    [nan] unless there are at least two of them. *)
Definition std_values (l : list Q) : deviation :=
  match l with
  | [] | [_] => StdNaN
  | _ =>
      let m := (total l / Qlen l)%Q in
      SqrtOf (total (map (sq_dev m) l) / (Qlen l - 1))%Q
  end.

(** [Series.std()]. *)
Definition std (s : series) : deviation := std_values (dropna s).

(** [Series.nunique()]: number of distinct values, missing ones left out. *)
Definition nunique (s : list (option string)) : nat :=
  length (nodup string_dec (dropna s)).

(** Elementwise [a < b]; a comparison with a missing cell is [False]. *)
Definition lt_cell (a b : option Q) : bool :=
  match a, b with
  | Some x, Some y => negb (Qle_bool y x)
  | _, _ => false
  end.

(** Number of [True] in a boolean column. *)
Definition count_true (m : list bool) : nat := length (filter (fun b => b) m).

(** Timestamp comparisons; a comparison with [NaT] is [False]. *)
Definition ge_ts (a b : option Z) : bool :=
  match a, b with
  | Some x, Some y => y <=? x
  | _, _ => false
  end.

Definition le_ts (a b : option Z) : bool :=
  match a, b with
  | Some x, Some y => x <=? y
  | _, _ => false
  end.

(** [Series.min()] / [Series.max()] of a timestamp column: [NaT] values are
    skipped; [NaT] when nothing is left. *)
Definition min_ts (s : list (option Z)) : option Z :=
  match dropna s with
  | [] => None
  | x :: l => Some (fold_right Z.min x l)
  end.

Definition max_ts (s : list (option Z)) : option Z :=
  match dropna s with
  | [] => None
  | x :: l => Some (fold_right Z.max x l)
  end.

(** [a - b] on timestamps followed by [.dt.days]: whole days, missing when
    either side is [NaT]. *)
Definition days_between (a b : option Z) : option Q :=
  match a, b with
  | Some x, Some y => Some (inject_Z (x - y))
  | _, _ => None
  end.

(** Elementwise [==] against a string; a missing cell is never equal. *)
Definition eq_str (a : option string) (s : string) : bool :=
  match a with
  | Some x => String.eqb x s
  | None => false
  end.

(** [df[mask]]: boolean indexing keeps the rows whose mask entry is [True],
    in index order. *)
Fixpoint select {A : Type} (l : list A) (m : list bool) : list A :=
  match l, m with
  | x :: l', b :: m' => if b then x :: select l' m' else select l' m'
  | _, _ => []
  end.

(** *** groupby *)

(** Group keys are ordered: timestamps chronologically, strings
    lexicographically. *)
Class Key (K : Type) : Type := { kcompare : K -> K -> comparison }.

#[export] Instance Key_timestamp : Key Z := {| kcompare := Z.compare |}.
#[export] Instance Key_string : Key string := {| kcompare := String.compare |}.

Section GroupBy.

Context {K : Type} `{Key K}.

(** Put one cell into the group of its key; groups are kept in ascending
    key order and a group keeps its cells in row order. *)
Fixpoint add_to_group (k : K) (v : option Q) (g : list (K * series))
  : list (K * series) :=
  match g with
  | [] => [(k, [v])]
  | (k', vs) :: g' =>
      match kcompare k k' with
      | Eq => (k', vs ++ [v]) :: g'
      | Lt => (k, [v]) :: g
      | Gt => (k', vs) :: add_to_group k v g'
      end
  end.

Definition add_row (g : list (K * series)) (kv : option K * option Q)
  : list (K * series) :=
  match fst kv with
  | Some k => add_to_group k (snd kv) g
  | None => g
  end.

(** [df.groupby(key)[value]]: the observed keys with their cells; rows
    with a missing key are left out. *)
Definition groups (keys : list (option K)) (vals : series)
  : list (K * series) :=
  fold_left add_row (combine keys vals) [].

(** [df.groupby(key)[value].agg().reset_index()] *)
Definition groupby_agg {V : Type} (agg : series -> V)
           (keys : list (option K)) (vals : series) : list (K * V) :=
  map (fun g => (fst g, agg (snd g))) (groups keys vals).

(** *** sort_values(by=value, ascending=False) *)

Fixpoint insert_by_value (x : K * float) (l : list (K * float))
  : list (K * float) :=
  match l with
  | [] => [x]
  | y :: l' =>
      if Np.leb (snd x) (snd y) then x :: l else y :: insert_by_value x l'
  end.

(** Stable ascending sort on the value. *)
Definition argsort_stable (l : list (K * float)) : list (K * float) :=
  fold_right insert_by_value [] l.

(** Descending order is obtained as pandas does it: the rows are reversed,
    sorted ascending with a stable sort, and reversed again; rows whose
    value is [nan] go last.  (The default sort of numpy is stable on the
    short tables a rollup produces; the order among equal values plays no
    role below.) *)
Definition sort_values_desc (l : list (K * float)) : list (K * float) :=
  let present := filter (fun x => negb (isnan (snd x))) l in
  let missing := filter (fun x => isnan (snd x)) l in
  rev (argsort_stable (rev present)) ++ missing.

End GroupBy.

End Pd.

(** ** The processed data set *)

(** One row of [data/processed_data.csv], with the columns the two
    dashboards read. *)
Record row : Type := {
  Order_ID : option string;
  Order_Date : option Z;
  Ship_Date : option Z;
  Category : option string;
  Product_ID : option string;
  Quantity_Ordered : option Q;
  Quantity_Delivered : option Q;
  Inventory : option Q;
  Reorder_Level : option Q;
  Fill_Rate : option Q;
  Inventory_Turnover : option Q;
  Inventory_Level : option Q;
  Stock_Level : option Q;
  Reorder_Point : option Q
}.

Definition frame := list row.

(** [df[col]] *)
Definition col {A : Type} (f : row -> A) (df : frame) : list A := map f df.

(** A row with every cell missing. *)
Definition empty_row : row :=
  {| Order_ID := None; Order_Date := None; Ship_Date := None;
     Category := None; Product_ID := None;
     Quantity_Ordered := None; Quantity_Delivered := None;
     Inventory := None; Reorder_Level := None;
     Fill_Rate := None; Inventory_Turnover := None;
     Inventory_Level := None; Stock_Level := None; Reorder_Point := None |}.

Import Np Pd.

(** ** output.py *)

Module Output.

(** Lines 35-37: the date window, then the category unless it is "All". *)
Definition filtered_df (df : frame) (start_date end_date : option Z)
           (category : string) : frame :=
  let filtered :=
    select df (map (fun r => ge_ts (Order_Date r) start_date
                             && le_ts (Order_Date r) end_date) df) in
  if String.eqb category "All" then filtered
  else select filtered (map (fun r => eq_str (Category r) category) filtered).

(** Line 40 *)
Definition Lead_Time (fdf : frame) : series :=
  map (fun r => days_between (Ship_Date r) (Order_Date r)) fdf.

Definition total_orders (fdf : frame) : nat := nunique (col Order_ID fdf).

Definition avg_lead_time (fdf : frame) : float :=
  round1 (mean (Lead_Time fdf)).

(** Line 43 *)
Definition fill_rate (fdf : frame) : float :=
  round1 (mul (div (sum (col Quantity_Delivered fdf))
                   (sum (col Quantity_Ordered fdf)))
              (Fin 100)).

(** Line 44 *)
Definition inventory_turnover (fdf : frame) : float :=
  round1 (div (sum (col Quantity_Delivered fdf)) (sum (col Inventory fdf))).

(** Line 45: the number of [True] entries of the comparison, one per row. *)
Definition products_at_risk (fdf : frame) : nat :=
  count_true (map (fun r => lt_cell (Inventory r) (Reorder_Level r)) fdf).

(** Line 46 *)
Definition total_products (fdf : frame) : nat := nunique (col Product_ID fdf).

(** Line 67 *)
Definition inventory_trend (fdf : frame) : list (Z * float) :=
  groupby_agg sum (col Order_Date fdf) (col Inventory fdf).

(** Line 73 *)
Definition cat_perf (fdf : frame) : list (string * float) :=
  sort_values_desc
    (groupby_agg sum (col Category fdf) (col Quantity_Delivered fdf)).

End Output.

(** ** dashboard/app.py *)

Module Dashboard.

Definition min_date (df : frame) : option Z := min_ts (col Order_Date df).
Definition max_date (df : frame) : option Z := max_ts (col Order_Date df).

(** Lines 25-27 *)
Definition mask (df : frame) (date_range : option Z * option Z)
           (selected_category : string) : list bool :=
  let m := map (fun r => ge_ts (Order_Date r) (fst date_range)
                         && le_ts (Order_Date r) (snd date_range)) df in
  if String.eqb selected_category "All" then m
  else map (fun bc => fst bc && snd bc)
           (combine m (map (fun r => eq_str (Category r) selected_category) df)).

(** Line 28 *)
Definition df_filtered (df : frame) (date_range : option Z * option Z)
           (selected_category : string) : frame :=
  select df (mask df date_range selected_category).

(** Line 33 *)
Definition total_orders (fdf : frame) : nat := nunique (col Order_ID fdf).

(** Line 34 *)
Definition lead_times (fdf : frame) : series :=
  map (fun r => days_between (Ship_Date r) (Order_Date r)) fdf.

(** Line 35 *)
Definition total_fill_rate (fdf : frame) : float := mean (col Fill_Rate fdf).

(** Line 38 *)
Definition inventory_turnover (fdf : frame) : float :=
  mean (col Inventory_Turnover fdf).

(** Line 47 *)
Definition df_time (fdf : frame) : list (Z * float) :=
  groupby_agg mean (col Order_Date fdf) (col Inventory_Level fdf).

(** Line 53 *)
Definition df_category (fdf : frame) : list (string * float) :=
  groupby_agg mean (col Category fdf) (col Fill_Rate fdf).

(** Line 62 *)
Definition at_risk (r : row) : bool := lt_cell (Stock_Level r) (Reorder_Point r).

Definition products_at_risk (fdf : frame) : nat :=
  nunique (col Product_ID (select fdf (map at_risk fdf))).

(** Line 80 *)
Definition total_products (fdf : frame) : nat := nunique (col Product_ID fdf).

(** Lines 73-75 *)
Definition mean_lead_time (fdf : frame) : float := mean (lead_times fdf).
Definition median_lead_time (fdf : frame) : float := median (lead_times fdf).
Definition std_lead_time (fdf : frame) : deviation := std (lead_times fdf).

(** Lines 92-94 *)
Definition df_lead (fdf : frame) : list (Z * float) :=
  groupby_agg mean (col Order_Date fdf) (lead_times fdf).

End Dashboard.

(** ** Python results and exceptions *)

Module Py.

(** The exception classes the ingestion code meets; all of them derive from
    [Exception]. *)
Inductive exn : Type :=
| Exception (msg : string)
| FileNotFoundError (msg : string)
| ValueError (msg : string)
| IndexError (msg : string)
| RequestException (msg : string)
| UnboundLocalError (name : string).

(** [str(e)] *)
Definition str (e : exn) : string :=
  match e with
  | Exception m | FileNotFoundError m | ValueError m | IndexError m
  | RequestException m => m
  | UnboundLocalError x =>
      "cannot access local variable '" ++ x
        ++ "' where it is not associated with a value"
  end.

Inductive result (A : Type) : Type :=
| Return (a : A)
| Raise (e : exn).

Arguments Return {A} a.
Arguments Raise {A} e.

(** [str(n)] for a length. *)
Definition str_of_nat (n : nat) : string :=
  DecimalString.NilZero.string_of_uint (Nat.to_uint n).

End Py.

Import Py.

(** ** data_Ingestion/excel_ingestor.py *)

Module ExcelIngestor.

Section Sheets.

(** The parsed content of one sheet. *)
Context {DataFrame : Type}.

(** A workbook: its sheets in file order, with their names. *)
Definition workbook : Type := list (string * DataFrame).

(** The values a caller passes as [sheet_name]. *)
Inductive selector : Type :=
| PyNone
| Name (s : string)
| Index (i : Z).

(** Python truth value of a selector. *)
Definition truthy (s : selector) : bool :=
  match s with
  | PyNone => false
  | Name s => negb (String.eqb s "")
  | Index i => negb (i =? 0)
  end.

(** What [pd.read_excel] hands back: one frame, or a dict of all sheets
    keyed by sheet name. *)
Inductive loaded : Type :=
| Frame (df : DataFrame)
| Dict (sheets : workbook).

(** [len(...)] of a loaded value, given the row count of a frame. *)
Definition len (rows : DataFrame -> nat) (x : loaded) : nat :=
  match x with
  | Frame df => rows df
  | Dict sheets => length sheets
  end.

(** The files the process can see. *)
Record filesystem : Type := {
  path_exists : string -> bool;
  open_workbook : string -> result workbook
}.

Fixpoint sheet_by_name (s : string) (wb : workbook) : option DataFrame :=
  match wb with
  | [] => None
  | (n, df) :: wb' => if String.eqb n s then Some df else sheet_by_name s wb'
  end.

(** [pd.read_excel(filepath, sheet_name=...)] *)
Definition read_excel (fs : filesystem) (filepath : string)
           (sheet_name : selector) : result loaded :=
  match open_workbook fs filepath with
  | Raise e => Raise e
  | Return wb =>
      match sheet_name with
      | PyNone => Return (Dict wb)
      | Name s =>
          match sheet_by_name s wb with
          | Some df => Return (Frame df)
          | None => Raise (ValueError ("Worksheet named '" ++ s ++ "' not found"))
          end
      | Index i =>
          if Z.of_nat (length wb) <=? i
          then Raise (ValueError "Worksheet index is invalid")
          else
            match (if 0 <=? i then nth_error wb (Z.to_nat i)
                   else nth_error (rev wb) (Z.to_nat (- i - 1))) with
            | Some (_, df) => Return (Frame df)
            | None => Raise (IndexError "list index out of range")
            end
      end
  end.

(** Lines 15-25 *)
Definition load_excel_data (fs : filesystem) (filepath : string)
           (sheet_name : selector) : result loaded :=
  if negb (path_exists fs filepath)
  then Raise (FileNotFoundError ("File not found: " ++ filepath))
  else
    match (if truthy sheet_name
           then read_excel fs filepath sheet_name
           else read_excel fs filepath PyNone) with
    | Return df => Return df
    | Raise e => Raise (Exception ("Error loading Excel file: " ++ str e))
    end.

End Sheets.

Arguments workbook : clear implicits.
Arguments loaded : clear implicits.
Arguments filesystem : clear implicits.

End ExcelIngestor.

(** ** data_Ingestion/api_ingestor.py *)

Module ApiIngestor.

Section Fetch.

Context {Product : Type}.

Definition FAKE_STORE_API_URL : string := "https://fakestoreapi.com/products".

(** An HTTP response: status code and the decoded body, when it decodes. *)
Record response : Type := {
  status_code : Z;
  json : result (list Product)
}.

(** [response.raise_for_status()] *)
Definition raise_for_status (r : response) : result unit :=
  if (400 <=? status_code r) && (status_code r <? 600)
  then Raise (RequestException "HTTP error")
  else Return tt.

(** Lines 12-17; [requests_get] is the network. *)
Definition fetch_fake_store_products
           (requests_get : string -> result response)
  : result (list Product) :=
  let body :=
    match requests_get FAKE_STORE_API_URL with
    | Raise e => Raise e
    | Return r =>
        match raise_for_status r with
        | Raise e => Raise e
        | Return _ => json r
        end
    end in
  match body with
  | Raise (RequestException m) =>
      Raise (Exception ("API fetch failed: " ++ m))
  | other => other
  end.

End Fetch.

Arguments response : clear implicits.

End ApiIngestor.

(** ** main.py *)

Module Main.

Import ExcelIngestor ApiIngestor.

(** The three ingestion sources of the orchestrator. *)
Inductive source : Type := Excel | Api | Simulation.

Section Pipeline.

Context {DataFrame Product InventoryFrame : Type}.

(** [len] of a frame. *)
Variable rows : DataFrame -> nat.
Variable inventory_rows : InventoryFrame -> nat.

(** The outside world of one run: the files and the network. *)
Variable fs : filesystem DataFrame.
Variable requests_get : string -> result (response Product).

(** [simulate_inventory] is imported from
    [data_ingestion/simulation_ingestor.py], which is not among the
    sources: it is any function from the product list to a frame, or to
    an exception. *)
Variable simulate_inventory : list Product -> result InventoryFrame.

(** What a run changes: the lines printed, the source functions entered,
    and the local variables of [main] (unbound until assigned). *)
Record state : Type := {
  stdout : list string;
  invoked : list source;
  excel_data : option (loaded DataFrame);
  products : option (list Product);
  inventory_df : option InventoryFrame
}.

Definition initial : state :=
  {| stdout := []; invoked := []; excel_data := None; products := None;
     inventory_df := None |}.

(** A statement: it changes the state and returns or raises. *)
Definition M (A : Type) : Type := state -> state * result A.

Definition ret {A : Type} (a : A) : M A := fun st => (st, Return a).

Definition bind {A B : Type} (c : M A) (k : A -> M B) : M B :=
  fun st =>
    match c st with
    | (st', Return a) => k a st'
    | (st', Raise e) => (st', Raise e)
    end.

Definition print (line : string) : M unit :=
  fun st =>
    ({| stdout := stdout st ++ [line]; invoked := invoked st;
        excel_data := excel_data st; products := products st;
        inventory_df := inventory_df st |}, Return tt).

(** Calling a source function: the call is recorded, its outcome is the
    outcome of the statement. *)
Definition call {A : Type} (s : source) (outcome : result A) : M A :=
  fun st =>
    ({| stdout := stdout st; invoked := invoked st ++ [s];
        excel_data := excel_data st; products := products st;
        inventory_df := inventory_df st |}, outcome).

Definition assign_excel_data (x : loaded DataFrame) : M unit :=
  fun st =>
    ({| stdout := stdout st; invoked := invoked st;
        excel_data := Some x; products := products st;
        inventory_df := inventory_df st |}, Return tt).

Definition assign_products (x : list Product) : M unit :=
  fun st =>
    ({| stdout := stdout st; invoked := invoked st;
        excel_data := excel_data st; products := Some x;
        inventory_df := inventory_df st |}, Return tt).

Definition assign_inventory_df (x : InventoryFrame) : M unit :=
  fun st =>
    ({| stdout := stdout st; invoked := invoked st;
        excel_data := excel_data st; products := products st;
        inventory_df := Some x |}, Return tt).

(** Reading the local [products]: an error while it is unbound. *)
Definition read_products : M (list Product) :=
  fun st =>
    match products st with
    | Some p => (st, Return p)
    | None => (st, Raise (UnboundLocalError "products"))
    end.

(** [try: body  except Exception as e: handler] *)
Definition try_except (body : M unit) (handler : exn -> M unit) : M unit :=
  fun st =>
    match body st with
    | (st', Return a) => (st', Return a)
    | (st', Raise e) => handler e st'
    end.

Notation "x <- c ;; k" := (bind c (fun x => k))
  (at level 61, c at next level, right associativity).
Notation "c ;; k" := (bind c (fun _ => k))
  (at level 61, right associativity).

(** Lines 27-54.  The pictograph that opens each printed line is left
    out. *)
Definition main : M unit :=
  print "Starting modular Supply Chain Pipeline..." ;;
  print "Loading Excel data..." ;;
  try_except
    (x <- call Excel (load_excel_data fs "data/Global_Superstore.xlsx"
                                      (Name "Orders")) ;;
     assign_excel_data x ;;
     print ("Loaded " ++ str_of_nat (len rows x) ++ " Excel records."))
    (fun e => print ("Failed to load Excel data: " ++ str e)) ;;
  print "Fetching product data from API..." ;;
  try_except
    (p <- call Api (fetch_fake_store_products requests_get) ;;
     assign_products p ;;
     print ("Retrieved " ++ str_of_nat (length p) ++ " products."))
    (fun e => print ("Failed to fetch API data: " ++ str e)) ;;
  print "Simulating inventory..." ;;
  try_except
    (p <- read_products ;;
     inv <- call Simulation (simulate_inventory p) ;;
     assign_inventory_df inv ;;
     print ("Simulated inventory for " ++ str_of_nat (inventory_rows inv)
              ++ " records."))
    (fun e => print ("Inventory simulation failed: " ++ str e)) ;;
  print "Pipeline (basic ingestors) completed.".

End Pipeline.

End Main.

(** ** The delimited text format: [DataFrame.to_csv] and [pd.read_csv] *)

Module Csv.

Definition COMMA : ascii := ","%char.
Definition QUOTE : ascii := "034"%char.
Definition LF : ascii := "010"%char.
Definition CR : ascii := "013"%char.

(** A calendar date, as the file spells it. *)
Record date : Type := { year : Z; month : Z; day : Z }.

(** A cell of a frame, by the type pandas gives its column: [NA] is the
    missing marker of every type; a float is carried as the literal it was
    read from. *)
Inductive cell : Type :=
| NA
| Int (z : Z)
| Float (literal : string)
| Bool (b : bool)
| Str (s : string)
| Date (d : date).

(** A frame: its column names and its records, each with one cell per
    column. *)
Record table : Type := { columns : list string; records : list (list cell) }.

(** *** Writing *)

Definition digit_char (d : Z) : ascii := ascii_of_nat (48 + Z.to_nat d).

(** The decimal digits of [n], most significant first, in front of [acc]. *)
Fixpoint digits_of (fuel : nat) (n : Z) (acc : string) : string :=
  match fuel with
  | O => acc
  | S fuel' =>
      let acc' := String (digit_char (n mod 10)) acc in
      if n <? 10 then acc' else digits_of fuel' (n / 10) acc'
  end.

(** [str(z)] for a 64-bit integer (at most 19 digits). *)
Definition str_of_int (z : Z) : string :=
  if z <? 0 then String "-" (digits_of 19 (- z) EmptyString)
  else digits_of 19 z EmptyString.

(** A number on exactly [width] digits. *)
Fixpoint zero_padded (width : nat) (n : Z) (acc : string) : string :=
  match width with
  | O => acc
  | S w => zero_padded w (n / 10) (String (digit_char (n mod 10)) acc)
  end.

(** [%Y-%m-%d] *)
Definition str_of_date (d : date) : string :=
  zero_padded 4 (year d)
    (String "-" (zero_padded 2 (month d)
       (String "-" (zero_padded 2 (day d) EmptyString)))).

(** The text of a cell; a missing value is written as the empty string. *)
Definition str_of_cell (c : cell) : string :=
  match c with
  | NA => EmptyString
  | Int z => str_of_int z
  | Float literal => literal
  | Bool true => "True"
  | Bool false => "False"
  | Str s => s
  | Date d => str_of_date d
  end.

(** The characters that make the writer quote a field: the delimiter, the
    quote character and the characters of the line terminator. *)
Definition special (c : ascii) : bool :=
  Ascii.eqb c COMMA || Ascii.eqb c QUOTE || Ascii.eqb c LF.

Fixpoint needs_quotes (s : string) : bool :=
  match s with
  | EmptyString => false
  | String c s' => special c || needs_quotes s'
  end.

(** The field with every quote character doubled, up to the closing quote. *)
Fixpoint escaped (s : string) : string :=
  match s with
  | EmptyString => String QUOTE EmptyString
  | String c s' =>
      if Ascii.eqb c QUOTE then String QUOTE (String QUOTE (escaped s'))
      else String c (escaped s')
  end.

Definition write_field (s : string) : string :=
  if needs_quotes s then String QUOTE (escaped s) else s.

Fixpoint join_fields (fields : list string) : string :=
  match fields with
  | [] => EmptyString
  | [f] => write_field f
  | f :: rest => write_field f ++ String COMMA (join_fields rest)
  end.

(** One line of the file.  A record of a single empty field is written as
    a pair of quotes, so that the line is not blank. *)
Definition write_row (fields : list string) : string :=
  match fields with
  | [EmptyString] => String QUOTE (String QUOTE (String LF EmptyString))
  | _ => join_fields fields ++ String LF EmptyString
  end.

Fixpoint write_rows (rows : list (list string)) : string :=
  match rows with
  | [] => EmptyString
  | r :: rows' => write_row r ++ write_rows rows'
  end.

(** [df.to_csv(index=False)] *)
Definition to_csv (t : table) : string :=
  write_rows (columns t :: map (map str_of_cell) (records t)).

(** *** Tokenizing *)

Inductive mode : Type :=
| START_RECORD
| START_FIELD
| IN_FIELD
| IN_QUOTED_FIELD
| QUOTE_IN_QUOTED_FIELD
| EAT_CRNL
| EAT_CRNL_NOP.

(** The tokenizer: its mode, the characters of the field being read, the
    fields of the line being read, and the lines read so far. *)
Record tokenizer : Type := {
  state : mode;
  field : string;
  line : list string;
  lines : list (list string)
}.

Definition start : tokenizer :=
  {| state := START_RECORD; field := EmptyString; line := []; lines := [] |}.

Definition push_char (c : ascii) (m : mode) (t : tokenizer) : tokenizer :=
  {| state := m; field := field t ++ String c EmptyString; line := line t;
     lines := lines t |}.

Definition end_field (m : mode) (t : tokenizer) : tokenizer :=
  {| state := m; field := EmptyString; line := line t ++ [field t];
     lines := lines t |}.

Definition end_line (m : mode) (t : tokenizer) : tokenizer :=
  {| state := m; field := EmptyString; line := [];
     lines := lines t ++ [line t] |}.

Definition set_state (m : mode) (t : tokenizer) : tokenizer :=
  {| state := m; field := field t; line := line t; lines := lines t |}.

Definition step_start_field (t : tokenizer) (c : ascii) : tokenizer :=
  if Ascii.eqb c LF then end_line START_RECORD (end_field START_RECORD t)
  else if Ascii.eqb c CR then end_field EAT_CRNL t
  else if Ascii.eqb c QUOTE then set_state IN_QUOTED_FIELD t
  else if Ascii.eqb c COMMA then end_field START_FIELD t
  else push_char c IN_FIELD t.

(** A blank line is skipped. *)
Definition step_start_record (t : tokenizer) (c : ascii) : tokenizer :=
  if Ascii.eqb c LF then t
  else if Ascii.eqb c CR then set_state EAT_CRNL_NOP t
  else step_start_field t c.

Definition step (t : tokenizer) (c : ascii) : tokenizer :=
  match state t with
  | START_RECORD => step_start_record t c
  | START_FIELD => step_start_field t c
  | IN_FIELD =>
      if Ascii.eqb c LF then end_line START_RECORD (end_field START_RECORD t)
      else if Ascii.eqb c CR then end_field EAT_CRNL t
      else if Ascii.eqb c COMMA then end_field START_FIELD t
      else push_char c IN_FIELD t
  | IN_QUOTED_FIELD =>
      if Ascii.eqb c QUOTE then set_state QUOTE_IN_QUOTED_FIELD t
      else push_char c IN_QUOTED_FIELD t
  | QUOTE_IN_QUOTED_FIELD =>
      if Ascii.eqb c QUOTE then push_char c IN_QUOTED_FIELD t
      else if Ascii.eqb c COMMA then end_field START_FIELD t
      else if Ascii.eqb c LF
           then end_line START_RECORD (end_field START_RECORD t)
      else if Ascii.eqb c CR then end_field EAT_CRNL t
      else push_char c IN_FIELD t
  | EAT_CRNL =>
      if Ascii.eqb c LF then end_line START_RECORD t
      else step_start_record (end_line START_RECORD t) c
  | EAT_CRNL_NOP =>
      if Ascii.eqb c LF then set_state START_RECORD t
      else step_start_record (set_state START_RECORD t) c
  end.

Fixpoint run (s : string) (t : tokenizer) : tokenizer :=
  match s with
  | EmptyString => t
  | String c s' => run s' (step t c)
  end.

(** At the end of the text a pending field and line are closed; the end of
    the text inside a quoted field is an error. *)
Definition at_eof (t : tokenizer) : option (list (list string)) :=
  match state t with
  | START_RECORD | EAT_CRNL_NOP => Some (lines t)
  | START_FIELD | IN_FIELD | QUOTE_IN_QUOTED_FIELD =>
      Some (lines (end_line START_RECORD (end_field START_RECORD t)))
  | EAT_CRNL => Some (lines (end_line START_RECORD t))
  | IN_QUOTED_FIELD => None
  end.

Definition tokenize (text : string) : option (list (list string)) :=
  at_eof (run text start).

(** *** Converting *)

Definition is_some {A : Type} (o : option A) : bool :=
  match o with
  | Some _ => true
  | None => false
  end.

(** The strings read as a missing value. *)
Definition na_values : list string :=
  [""; "#N/A"; "#N/A N/A"; "#NA"; "-1.#IND"; "-1.#QNAN"; "-NaN"; "-nan";
   "1.#IND"; "1.#QNAN"; "<NA>"; "N/A"; "NA"; "NULL"; "NaN"; "None"; "n/a";
   "nan"; "null"]%string.

Definition is_na (tok : string) : bool :=
  existsb (String.eqb tok) na_values.

Definition is_space (c : ascii) : bool :=
  let n := nat_of_ascii c in
  Nat.eqb n 32 || (Nat.leb 9 n && Nat.leb n 13).

Definition is_digit (c : ascii) : bool :=
  let n := nat_of_ascii c in Nat.leb 48 n && Nat.leb n 57.

Definition digit_value (c : ascii) : Z := Z.of_nat (nat_of_ascii c) - 48.

Fixpoint skip_spaces (s : string) : string :=
  match s with
  | String c s' => if is_space c then skip_spaces s' else s
  | EmptyString => EmptyString
  end.

Fixpoint all_spaces (s : string) : bool :=
  match s with
  | EmptyString => true
  | String c s' => is_space c && all_spaces s'
  end.

(** Digits, read from the left onto [acc]; what follows the digits. *)
Fixpoint read_digits (s : string) (acc : Z) (seen : nat) : Z * nat * string :=
  match s with
  | String c s' =>
      if is_digit c then read_digits s' (10 * acc + digit_value c) (S seen)
      else (acc, seen, s)
  | EmptyString => (acc, seen, s)
  end.

Definition read_sign (s : string) : bool * string :=
  match s with
  | String "-" s' => (true, s')
  | String "+" s' => (false, s')
  | _ => (false, s)
  end.

Definition in_int64 (z : Z) : bool :=
  (- 2 ^ 63 <=? z) && (z <=? 2 ^ 63 - 1).

(** An integer literal: spaces, a sign, at least one digit, spaces; within
    64 bits. *)
Definition parse_int (tok : string) : option Z :=
  let '(negative, body) := read_sign (skip_spaces tok) in
  let '(v, seen, rest) := read_digits body 0 0 in
  if Nat.eqb seen 0 then None
  else if negb (all_spaces rest) then None
  else
    let z := if negative then - v else v in
    if in_int64 z then Some z else None.

Definition lower (c : ascii) : ascii :=
  let n := nat_of_ascii c in
  if Nat.leb 65 n && Nat.leb n 90 then ascii_of_nat (n + 32) else c.

Fixpoint lowercase (s : string) : string :=
  match s with
  | EmptyString => EmptyString
  | String c s' => String (lower c) (lowercase s')
  end.

(** A float literal: spaces, a sign, digits with an optional decimal point
    (at least one digit), an optional exponent, spaces; or a signed
    infinity. *)
Definition is_float (tok : string) : bool :=
  let '(_, body) := read_sign (skip_spaces tok) in
  let '(_, int_digits, after_int) := read_digits body 0 0 in
  let '(frac_digits, after_frac) :=
    match after_int with
    | String "." s' => let '(_, n, r) := read_digits s' 0 0 in (n, r)
    | _ => (O, after_int)
    end in
  let after_exp :=
    match after_frac with
    | String c s' =>
        if Ascii.eqb (lower c) "e" then
          let '(_, e_body) := read_sign s' in
          let '(_, n, r) := read_digits e_body 0 0 in
          if Nat.eqb n 0 then None else Some r
        else Some after_frac
    | EmptyString => Some after_frac
    end in
  let number :=
    negb (Nat.eqb (int_digits + frac_digits) 0)
    && match after_exp with
       | Some rest => all_spaces rest
       | None => false
       end in
  let infinity :=
    let word := lowercase body in
    String.eqb word "inf" || String.eqb word "infinity" in
  number || infinity.

Definition parse_bool (tok : string) : option bool :=
  if existsb (String.eqb tok) ["True"; "TRUE"; "true"]%string then Some true
  else if existsb (String.eqb tok) ["False"; "FALSE"; "false"]%string
       then Some false
  else None.

Definition days_in_month (y m : Z) : Z :=
  if (m =? 2) then
    (if ((y mod 4 =? 0) && negb (y mod 100 =? 0)) || (y mod 400 =? 0)
     then 29 else 28)
  else if (m =? 4) || (m =? 6) || (m =? 9) || (m =? 11) then 30
  else 31.

(** The dates a timestamp column can hold. *)
Definition valid_date (d : date) : bool :=
  (1678 <=? year d) && (year d <=? 2261)
  && (1 <=? month d) && (month d <=? 12)
  && (1 <=? day d) && (day d <=? days_in_month (year d) (month d)).

(** A date in the form [YYYY-MM-DD]. *)
Definition parse_date (tok : string) : option date :=
  let '(y, ny, r1) := read_digits tok 0 0 in
  match r1 with
  | String "-" s1 =>
      let '(m, nm, r2) := read_digits s1 0 0 in
      match r2 with
      | String "-" s2 =>
          let '(d, nd, r3) := read_digits s2 0 0 in
          let v := {| year := y; month := m; day := d |} in
          if Nat.eqb ny 4 && Nat.eqb nm 2 && Nat.eqb nd 2
             && String.eqb r3 EmptyString && valid_date v
          then Some v else None
      | _ => None
      end
  | _ => None
  end.

(** The type a column is given by its tokens. *)
Inductive dtype : Type := int64 | float64 | bool_ | object.

(** Types are tried in this order: integers (not with a missing value),
    floats, booleans; what is left is text. *)
Definition infer (toks : list string) : dtype :=
  let present := filter (fun tok => negb (is_na tok)) toks in
  if forallb (fun tok => negb (is_na tok)) toks
     && forallb (fun tok => is_some (parse_int tok)) toks
  then int64
  else if forallb is_float present then float64
  else if forallb (fun tok => is_some (parse_bool tok)) present
       then bool_
  else object.

Definition convert (ty : dtype) (tok : string) : cell :=
  if is_na tok then NA
  else
    match ty with
    | int64 => match parse_int tok with Some z => Int z | None => NA end
    | float64 => Float tok
    | bool_ => match parse_bool tok with Some b => Bool b | None => NA end
    | object => Str tok
    end.

(** A column listed in [parse_dates] becomes a timestamp column when all of
    its values read as dates; it keeps its inferred type otherwise. *)
Definition all_dates (toks : list string) : bool :=
  forallb (fun tok => is_na tok || is_some (parse_date tok))
          toks.

Definition convert_date (tok : string) : cell :=
  match parse_date tok with
  | Some d => Date d
  | None => NA
  end.

(** How the cells of one column are read. *)
Definition reader (parse_dates : list string) (name : string)
           (toks : list string) : string -> cell :=
  if existsb (String.eqb name) parse_dates && all_dates toks
  then convert_date
  else convert (infer toks).

Definition first (fields : list string) : string := hd EmptyString fields.
Definition rest (fields : list string) : list string := tl fields.

(** One reader per column, each from the tokens of its own column. *)
Fixpoint readers (parse_dates : list string) (names : list string)
         (rows : list (list string)) : list (string -> cell) :=
  match names with
  | [] => []
  | name :: names' =>
      reader parse_dates name (map first rows)
        :: readers parse_dates names' (map rest rows)
  end.

(** A record shorter than the header is completed with missing values. *)
Fixpoint read_record (rs : list (string -> cell)) (fields : list string)
  : list cell :=
  match rs with
  | [] => []
  | r :: rs' =>
      match fields with
      | [] => NA :: read_record rs' []
      | f :: fields' => r f :: read_record rs' fields'
      end
  end.

Fixpoint distinct (names : list string) : bool :=
  match names with
  | [] => true
  | n :: names' => negb (existsb (String.eqb n) names') && distinct names'
  end.

(** [pd.read_csv(text, parse_dates=...)]: the first line is the header.
    [None] stands for what this model leaves out: a parser error (the end
    of the text inside a quoted field, a record longer than the header, a
    [parse_dates] column that is not in the header) and the renaming of
    empty or repeated column names. *)
Definition read_csv (text : string) (parse_dates : list string)
  : option table :=
  match tokenize text with
  | Some (names :: rows) =>
      if distinct names
         && negb (existsb (String.eqb EmptyString) names)
         && forallb (fun d => existsb (String.eqb d) names) parse_dates
         && forallb (fun r => Nat.leb (length r) (length names)) rows
      then
        let rs := readers parse_dates names rows in
        Some {| columns := names; records := map (read_record rs) rows |}
      else None
  | _ => None
  end.

(** [load_data] of [app.py], lines 8-11, on the text of the data file. *)
Definition load_data (text : string) : option table :=
  read_csv text ["Order Date"; "Ship Date"]%string.

(** [df[mask]] *)
Definition view (t : table) (mask : list bool) : table :=
  {| columns := columns t; records := Pd.select (records t) mask |}.

End Csv.

(** ** supply chain pro/output.py: the dashboard on generated data *)

Module SampleDashboard.

(** [Series.value_counts().sort_index()]: how often each value occurs, by
    ascending value. *)
Definition value_counts (s : list Z) : list (Z * nat) :=
  map (fun g => (fst g, length (snd g)))
      (groups (map Some s) (map (fun _ : Z => @None Q) s)).

Section Draw.

(** The columns drawn at random: [Lead Time (Days)] of the 100 orders
    ([np.random.randint(1, 15, 100)]) and [stockout_risk] of the 300
    inventory records ([np.random.choice([True, False], 300, ...)]). *)
Variable lead_time_days : list Z.
Variable stockout_risk : list bool.

(** Line 53 *)
Definition average_lead_time : float :=
  mean (map (fun x => Some (inject_Z x)) lead_time_days).

(** Line 64 *)
Definition lead_time_counts : list (Z * nat) := value_counts lead_time_days.

(** Line 128: [sample_inventory['stockout_risk'].sum()] *)
Definition products_at_risk : nat := count_true stockout_risk.

(** Line 130: [(sample_orders['Lead Time (Days)'] > 14).sum()] *)
Definition late_orders : nat :=
  count_true (map (fun x => 14 <? x) lead_time_days).

(** Lines 127-131.  The pictograph that opens each alert is left out. *)
Definition alerts : list string :=
  (if Nat.ltb 0 products_at_risk
   then [str_of_nat products_at_risk ++ " products at risk of stockout"]%string
   else [])
  ++ (if Nat.ltb 0 late_orders
      then [str_of_nat late_orders ++ " orders with lead time > 14 days"]%string
      else []).

(** What the alert panel shows. *)
Inductive panel : Type :=
| Warnings (messages : list string)
| Success (message : string).

(** Lines 132-136 *)
Definition alert_panel : panel :=
  match alerts with
  | [] => Success "All systems operating normally"
  | a :: rest => Warnings (a :: rest)
  end.

End Draw.

(** A draw of [np.random.randint(low, high, n)]: [n] integers, each at least
    [low] and below [high]. *)
Definition randint (low high : Z) (n : nat) (draw : list Z) : Prop :=
  length draw = n /\ Forall (fun x => low <= x < high) draw.

End SampleDashboard.

(** ** Sample views *)

Module Samples.

Definition order (id : string) (ordered shipped : option Z) (cat pid : string)
           (q_ordered q_delivered stock reorder : Q) : row :=
  {| Order_ID := Some id; Order_Date := ordered; Ship_Date := shipped;
     Category := Some cat; Product_ID := Some pid;
     Quantity_Ordered := Some q_ordered; Quantity_Delivered := Some q_delivered;
     Inventory := Some stock; Reorder_Level := Some reorder;
     Fill_Rate := None; Inventory_Turnover := None;
     Inventory_Level := Some stock; Stock_Level := Some stock;
     Reorder_Point := Some reorder |}.

(** One order of nothing, with nothing in stock. *)
Definition zero_view : frame :=
  [order "O1" (Some 10) (Some 12) "Home" "P1" 0 0 0 5].

(** Two orders, 7 of 8 units delivered, 4 units in stock. *)
Definition small_view : frame :=
  [order "O1" (Some 10) (Some 12) "Home" "P1" 5 4 3 5;
   order "O2" (Some 11) (Some 15) "Toys" "P2" 3 3 1 5].

(** Two snapshot rows of the same product, both below the reorder level. *)
Definition repeated_product_view : frame :=
  [order "O1" (Some 10) (Some 12) "Home" "P1" 5 4 1 5;
   order "O2" (Some 11) (Some 15) "Home" "P1" 3 3 2 5].

(** Two records, the second one without an order date. *)
Definition undated_view : frame :=
  [order "O1" (Some 10) (Some 12) "Home" "P1" 5 4 3 5;
   order "O2" None (Some 15) "Toys" "P2" 3 3 1 5].

(** One order shipped three days after it was placed. *)
Definition single_order_view : frame :=
  [order "O1" (Some 10) (Some 13) "Home" "P1" 5 4 3 5].

(** Category "A" delivers 1 unit, category "B" delivers 5. *)
Definition two_category_view : frame :=
  [order "O1" (Some 10) (Some 12) "A" "P1" 5 1 3 5;
   order "O2" (Some 11) (Some 15) "B" "P2" 5 5 1 5].

End Samples.

(** ** Sample worlds for the ingestors

    In these, a sheet is represented by its number of rows and a product by
    its name. *)

Module Worlds.

Import ExcelIngestor ApiIngestor.

(** A workbook with two sheets, readable at every path that exists. *)
Definition superstore : workbook nat :=
  [("Orders"%string, 3%nat); ("Returns"%string, 1%nat)].

Definition fs_ok : filesystem nat :=
  {| path_exists := fun p => String.eqb p "data/Global_Superstore.xlsx";
     open_workbook := fun _ => Return superstore |}.

(** The file is there but it is not a workbook. *)
Definition fs_corrupt : filesystem nat :=
  {| path_exists := fun p => String.eqb p "data/Global_Superstore.xlsx";
     open_workbook := fun _ => Raise (ValueError "File is not a zip file") |}.

(** The network is down. *)
Definition requests_down : string -> result (response string) :=
  fun _ => Raise (RequestException "connection refused").

(** The catalog answers with two products. *)
Definition requests_ok : string -> result (response string) :=
  fun _ => Return {| status_code := 200; json := Return ["shirt"%string; "ring"%string] |}.

(** A simulation that never fails: one inventory record per product. *)
Definition simulate_ok : list string -> result nat :=
  fun p => Return (length p).

End Worlds.

(** *** Typed record sets

    The record sets a dashboard exports come from [read_csv], so each of
    their columns has one type. *)

Module CsvTypes.

Import Csv.

Inductive coltype : Type := IntColumn | BoolColumn | TextColumn | DateColumn.

Fixpoint no_cr (s : string) : bool :=
  match s with
  | EmptyString => true
  | String c s' => negb (Ascii.eqb c CR) && no_cr s'
  end.

(** A cell of a column of the given type: an integer column has no missing
    value; a text is not one of the missing-value strings and has no
    carriage return. *)
Definition cell_has (ty : coltype) (c : cell) : bool :=
  match ty, c with
  | IntColumn, Int z => in_int64 z
  | BoolColumn, (Bool _ | NA) => true
  | TextColumn, NA => true
  | TextColumn, Str s => negb (is_na s) && no_cr s
  | DateColumn, NA => true
  | DateColumn, Date d => valid_date d
  | _, _ => false
  end.

Fixpoint record_has (tys : list coltype) (r : list cell) : bool :=
  match tys, r with
  | [], [] => true
  | ty :: tys', c :: r' => cell_has ty c && record_has tys' r'
  | _, _ => false
  end.

Definition is_date_column (ty : coltype) : bool :=
  match ty with
  | DateColumn => true
  | _ => false
  end.

(** One type per column name; the timestamp columns are the columns listed
    in [parse_dates]. *)
Fixpoint header_has (parse_dates : list string) (names : list string)
         (tys : list coltype) : bool :=
  match names, tys with
  | [], [] => true
  | n :: names', ty :: tys' =>
      no_cr n && negb (String.eqb EmptyString n)
      && Bool.eqb (existsb (String.eqb n) parse_dates) (is_date_column ty)
      && header_has parse_dates names' tys'
  | _, _ => false
  end.

Definition well_typed (parse_dates : list string) (tys : list coltype)
           (t : table) : bool :=
  negb (Nat.eqb (length (columns t)) 0)
  && distinct (columns t)
  && header_has parse_dates (columns t) tys
  && forallb (fun d => existsb (String.eqb d) (columns t)) parse_dates
  && forallb (record_has tys) (records t).

Definition is_object (ty : dtype) : bool :=
  match ty with
  | object => true
  | _ => false
  end.

(** A text column still reads as text: the type inferred from its exported
    values is [object], or it has no value at all. *)
Fixpoint text_stays_text (tys : list coltype) (rows : list (list string))
  : bool :=
  match tys with
  | [] => true
  | ty :: tys' =>
      match ty with
      | TextColumn =>
          forallb is_na (map first rows)
          || is_object (infer (map first rows))
      | _ => true
      end
      && text_stays_text tys' (map rest rows)
  end.

Definition exported_rows (t : table) : list (list string) :=
  map (map str_of_cell) (records t).

(** Notions of the round-trip argument. *)

Definition plain (c : ascii) : bool := negb (special c) && negb (Ascii.eqb c CR).

Definition ready (m : mode) : Prop := m = START_RECORD \/ m = START_FIELD.

(** The tokenizer after a written field: the field is complete, and a
    delimiter or a line end will close it. *)
Definition holds (f : string) (m : mode) (l : list string)
           (ls : list (list string)) (t : tokenizer) : Prop :=
  field t = f /\ line t = l /\ lines t = ls
  /\ (state t = IN_FIELD \/ state t = QUOTE_IN_QUOTED_FIELD
      \/ (f = EmptyString /\ state t = m)).

Fixpoint all_no_cr (fields : list string) : bool :=
  match fields with
  | [] => true
  | f :: fields' => no_cr f && all_no_cr fields'
  end.

Definition writable (fields : list string) : Prop :=
  fields <> [] /\ all_no_cr fields = true.

(** The data set of the counterexample: the category of the first order
    reads as a number. *)
Definition orders_text : string :=
  "Order Date,Ship Date,Category,Quantity Ordered
2024-01-01,2024-01-04,7,3
2024-01-02,,Home,4
".

Definition jan (d : Z) : date := {| year := 2024; month := 1; day := d |}.

Definition orders : table :=
  {| columns := ["Order Date"; "Ship Date"; "Category";
                 "Quantity Ordered"]%string;
     records := [[Date (jan 1); Date (jan 4); Str "7"; Int 3];
                 [Date (jan 2); NA; Str "Home"; Int 4]] |}.

Definition orders_types : list coltype :=
  [DateColumn; DateColumn; TextColumn; IntColumn].

End CsvTypes.

(** ** Notions of the specification *)

(** The error taxonomy of the adapters. *)
Inductive error_kind : Type := SourceUnavailable | SourceFormatError.

(** How the exceptions of the tabular-file adapter read in that taxonomy:
    the missing-file error is [SourceUnavailable], the adapter's own wrapping
    exception is [SourceFormatError]. *)
Definition kind_of (e : exn) : option error_kind :=
  match e with
  | FileNotFoundError _ => Some SourceUnavailable
  | Exception _ => Some SourceFormatError
  | _ => None
  end.

(** The record carries an order date. *)
Definition has_order_date (r : row) : bool :=
  match Order_Date r with
  | Some _ => true
  | None => false
  end.

(** The order carries both of its dates. *)
Definition has_both_dates (r : row) : bool :=
  match Order_Date r, Ship_Date r with
  | Some _, Some _ => true
  | _, _ => false
  end.

(** Lead time per order as the specification words it: ship date minus
    order date in whole days, for the orders that carry both dates. *)
Fixpoint complete_lead_days (fdf : frame) : list Z :=
  match fdf with
  | [] => []
  | r :: fdf' =>
      match Order_Date r, Ship_Date r with
      | Some o, Some s => (s - o)%Z :: complete_lead_days fdf'
      | _, _ => complete_lead_days fdf'
      end
  end.

(** [Series.fillna(0)]: what coercing the missing lead times to zero would
    give. *)
Definition fillna_zero (s : series) : series :=
  map (fun c => match c with Some x => Some x | None => Some 0%Q end) s.

(** Strictly ascending bucket keys. *)
Definition key_lt {K : Type} `{Key K} (a b : K) : Prop := kcompare a b = Lt.

Definition keys_ascending {K V : Type} `{Key K} (rollup : list (K * V)) : Prop :=
  StronglySorted key_lt (map fst rollup).

(** Values from the largest to the smallest. *)
Definition values_descending {K : Type} (rollup : list (K * float)) : Prop :=
  StronglySorted (fun a b => Np.leb b a = true) (map snd rollup).

(** The filter as a predicate on one record: the order date lies in the
    window, and the category is the selected one unless "All" is selected. *)
Definition in_window (lo hi : option Z) (r : row) : bool :=
  ge_ts (Order_Date r) lo && le_ts (Order_Date r) hi.

Definition keeps (lo hi : option Z) (selected : string) (r : row) : bool :=
  in_window lo hi r
  && (String.eqb selected "All" || eq_str (Category r) selected).

(** The record carries a category. *)
Definition has_category (r : row) : bool :=
  match Category r with
  | Some _ => true
  | None => false
  end.

(** The record belongs to the bucket of key [k]. *)
Definition in_bucket {K : Type} `{Key K} (key : row -> option K) (k : K)
           (r : row) : bool :=
  match key r with
  | Some k' => match kcompare k' k with Eq => true | _ => false end
  | None => false
  end.

(** Every present value of the column lies between [a] and [b]. *)
Definition within (a b : Q) (s : series) : Prop :=
  Forall (fun x => (a <= x)%Q /\ (x <= b)%Q) (dropna s).

(** Each order is delivered at most what was ordered, and no less than
    nothing. *)
Definition delivered_within_ordered (r : row) : Prop :=
  exists d o : Q,
    Quantity_Delivered r = Some d /\ Quantity_Ordered r = Some o
    /\ (0 <= d)%Q /\ (d <= o)%Q.

(** The cells that the rows of key [k] contribute, in row order. *)
Definition cells_of {K : Type} `{Key K} (k : K)
           (kvs : list (option K * option Q)) : series :=
  map snd
      (filter (fun kv => match fst kv with
                         | Some k' =>
                             match kcompare k' k with Eq => true | _ => false end
                         | None => false
                         end) kvs).

(** The cells of the group of key [k], when there is one. *)
Fixpoint lookup {K : Type} `{Key K} (k : K) (g : list (K * series)) : series :=
  match g with
  | [] => []
  | (k', vs) :: g' =>
      match kcompare k' k with
      | Eq => vs
      | _ => lookup k g'
      end
  end.

(** The value of a bucket that is a number; 0 stands for the others. *)
Definition finite_value (x : float) : Q :=
  match x with
  | Fin q => q
  | _ => 0%Q
  end.

(** The sum of the present cells of all groups, and the number of cells of
    all groups. *)
Definition groups_total {K : Type} (g : list (K * series)) : Q :=
  total (map (fun e => total (dropna (snd e))) g).

Definition counted {K : Type} (g : list (K * series)) : nat :=
  fold_right Nat.add 0%nat (map (fun e => length (snd e)) g).

(** * Properties *)

Import Samples.
Local Open Scope Q_scope.

(** ** Fill rate and turnover *)

Lemma sum_is_total (s : series) : sum s = Fin (total (dropna s)).
Proof. reflexivity. Qed.

Lemma inf_of_sign_round (b : bool) (q : Q) :
  round1 (mul (inf_of_sign b) (Fin q)) =
  if is_zero q then NaN else inf_of_sign (xorb b (is_neg q)).
Proof.
  destruct b; simpl; destruct (is_zero q); simpl; auto;
    destruct (is_neg q); reflexivity.
Qed.

Example fill_rate_small_view :
  Output.fill_rate small_view = Fin (round_decimal (7 / 8 * 100))
  /\ feq (Output.fill_rate small_view) (Fin (875 # 10)).
Proof. split; vm_compute; reflexivity. Qed.

(** C1, as the code has it: the fill rate and the turnover of [output.py]
    are the quotient of the column sums (times 100 for the fill rate)
    rounded to one decimal when the denominator sum is not zero; a zero
    denominator raises nothing and gives [nan] when the numerator sum is
    zero too, and a signed infinity otherwise. *)
Theorem fill_rate_turnover_unguarded (fdf : frame) :
  let delivered := total (dropna (col Quantity_Delivered fdf)) in
  let ordered := total (dropna (col Quantity_Ordered fdf)) in
  let stock := total (dropna (col Inventory fdf)) in
  Output.fill_rate fdf =
    (if is_zero ordered
     then (if is_zero delivered then NaN else inf_of_sign (is_neg delivered))
     else Fin (round_decimal (delivered / ordered * 100)))
  /\ Output.inventory_turnover fdf =
    (if is_zero stock
     then (if is_zero delivered then NaN else inf_of_sign (is_neg delivered))
     else Fin (round_decimal (delivered / stock))).
Proof.
  intros delivered ordered stock.
  unfold Output.fill_rate, Output.inventory_turnover.
  rewrite !sum_is_total.
  fold delivered ordered stock.
  split.
  - unfold div. destruct (is_zero ordered).
    + destruct (is_zero delivered); [reflexivity|].
      rewrite inf_of_sign_round. simpl. now rewrite xorb_false_r.
    + reflexivity.
  - unfold div. destruct (is_zero stock).
    + destruct (is_zero delivered); [reflexivity|].
      now destruct (is_neg delivered).
    + reflexivity.
Qed.

(** C1, as stated, fails: in a view whose ordered quantities and stock sum
    to zero the fill rate and the turnover are [nan], not 0. *)
Lemma zero_denominator_gives_nan :
  total (dropna (col Quantity_Ordered zero_view)) == 0
  /\ total (dropna (col Inventory zero_view)) == 0
  /\ Output.fill_rate zero_view = NaN
  /\ Output.inventory_turnover zero_view = NaN
  /\ ~ feq (Output.fill_rate zero_view) (Fin 0)
  /\ ~ feq (Output.inventory_turnover zero_view) (Fin 0).
Proof.
  repeat split; try reflexivity; vm_compute; auto.
Qed.

Example mean_fill_rate_of_empty_view :
  Dashboard.total_fill_rate [] = NaN /\ Dashboard.inventory_turnover [] = NaN.
Proof. split; reflexivity. Qed.

(** ** Products at risk *)

Lemma select_map_filter {A : Type} (p : A -> bool) (l : list A) :
  select l (map p l) = filter p l.
Proof.
  induction l as [|x l IH]; simpl; [reflexivity|].
  destruct (p x); now rewrite IH.
Qed.

Lemma In_dropna {A : Type} (x : A) (s : list (option A)) :
  In x (dropna s) <-> In (Some x) s.
Proof.
  induction s as [|[y|] s IH]; simpl.
  - tauto.
  - rewrite IH. split; intros [E|H]; auto; left; congruence.
  - rewrite IH. split; [auto|]. intros [E|H]; [discriminate|auto].
Qed.

Lemma nunique_incl (s t : list (option string)) :
  incl s t -> (nunique s <= nunique t)%nat.
Proof.
  intros Hincl. unfold nunique.
  apply NoDup_incl_length; [apply NoDup_nodup|].
  intros x Hx. apply nodup_In. apply In_dropna.
  apply Hincl. apply In_dropna. now apply nodup_In in Hx.
Qed.

(** X28: the count of [app.py] is a count of distinct product identifiers
    and is bounded by the number of distinct identifiers of the view. *)
Lemma dashboard_products_at_risk_distinct (fdf : frame) :
  Dashboard.products_at_risk fdf
  = length (nodup string_dec
              (dropna (col Product_ID (filter Dashboard.at_risk fdf))))
  /\ (Dashboard.products_at_risk fdf <= Dashboard.total_products fdf)%nat.
Proof.
  unfold Dashboard.products_at_risk, Dashboard.total_products.
  rewrite select_map_filter. split; [reflexivity|].
  apply nunique_incl. unfold col. intros x Hx.
  apply in_map_iff in Hx. destruct Hx as [r [<- Hr]].
  apply filter_In in Hr. apply in_map. tauto.
Qed.

(** C2 at a view with two rows of one product, both under the reorder
    level: [output.py] reports 2 products at risk next to 1 product in
    total, where [app.py] reports 1. *)
Theorem output_products_at_risk_counts_rows :
  Output.products_at_risk repeated_product_view = 2%nat
  /\ Output.total_products repeated_product_view = 1%nat
  /\ Dashboard.products_at_risk repeated_product_view = 1%nat.
Proof. repeat split. Qed.

(** ** The filter *)

Lemma fold_min_le (x : Z) (l : list Z) :
  (fold_right Z.min x l <= x)%Z
  /\ forall y, In y l -> (fold_right Z.min x l <= y)%Z.
Proof.
  induction l as [|a l [IH1 IH2]]; simpl.
  - split; [lia|tauto].
  - split; [lia|]. intros y [<-|Hy]; [lia|]. specialize (IH2 y Hy). lia.
Qed.

Lemma fold_max_ge (x : Z) (l : list Z) :
  (x <= fold_right Z.max x l)%Z
  /\ forall y, In y l -> (y <= fold_right Z.max x l)%Z.
Proof.
  induction l as [|a l [IH1 IH2]]; simpl.
  - split; [lia|tauto].
  - split; [lia|]. intros y [<-|Hy]; [lia|]. specialize (IH2 y Hy). lia.
Qed.

(** Every date of the column lies between the column's minimum and maximum. *)
Lemma within_min_max (s : list (option Z)) (d : Z) :
  In (Some d) s ->
  ge_ts (Some d) (min_ts s) = true /\ le_ts (Some d) (max_ts s) = true.
Proof.
  intros Hd. apply In_dropna in Hd. unfold min_ts, max_ts.
  destruct (dropna s) as [|x l]; [contradiction|]. simpl.
  destruct (fold_min_le x l) as [m1 m2], (fold_max_ge x l) as [M1 M2].
  destruct Hd as [<-|Hd]; split; apply Z.leb_le; auto.
Qed.

Lemma filter_ext_in' {A : Type} (p q : A -> bool) (l : list A) :
  (forall x, In x l -> p x = q x) -> filter p l = filter q l.
Proof.
  induction l as [|x l IH]; simpl; intros H; [reflexivity|].
  rewrite (H x (or_introl eq_refl)), IH; auto.
Qed.

Lemma full_range_window (df : frame) :
  filter (fun r => ge_ts (Order_Date r) (min_ts (col Order_Date df))
                   && le_ts (Order_Date r) (max_ts (col Order_Date df))) df
  = filter has_order_date df.
Proof.
  apply filter_ext_in'. intros r Hr. unfold has_order_date.
  destruct (Order_Date r) as [d|] eqn:E; [|reflexivity].
  destruct (within_min_max (col Order_Date df) d) as [-> ->]; [|reflexivity].
  rewrite <- E. unfold col. now apply in_map.
Qed.

(** C3, as the code has it: with the full date range and "All", both
    dashboards keep exactly the records that have an order date, in their
    original order, whatever their category. *)
Theorem full_range_filter_keeps_dated_records (df : frame) :
  Dashboard.df_filtered df (Dashboard.min_date df, Dashboard.max_date df) "All"
  = filter has_order_date df
  /\ Output.filtered_df df (Dashboard.min_date df) (Dashboard.max_date df) "All"
  = filter has_order_date df.
Proof.
  unfold Dashboard.df_filtered, Dashboard.mask, Output.filtered_df,
    Dashboard.min_date, Dashboard.max_date.
  simpl. rewrite !select_map_filter. split; apply full_range_window.
Qed.

(** C3, as stated, fails: a record without an order date is dropped by the
    full-range filter. *)
Lemma full_range_filter_drops_undated_record :
  Dashboard.df_filtered undated_view
    (Dashboard.min_date undated_view, Dashboard.max_date undated_view) "All"
  <> undated_view.
Proof. vm_compute. discriminate. Qed.

(** ** Lead-time statistics *)

Example lead_time_statistics_small_view :
  feq (Dashboard.mean_lead_time small_view) (Fin 3)
  /\ feq (Dashboard.median_lead_time small_view) (Fin 3)
  /\ exists v, Dashboard.std_lead_time small_view = SqrtOf v /\ v == 2.
Proof. repeat split. eexists. split; [reflexivity|]. reflexivity. Qed.

(** C4, as the code has it: for a view of one order shipped three days
    after its order date, the mean and the median lead time are 3 and the
    standard deviation is [nan] (the sample deviation of one value). *)
Theorem single_order_lead_time_statistics (r : row) (d : Z) :
  Order_Date r = Some d ->
  Ship_Date r = Some (d + 3)%Z ->
  feq (Dashboard.mean_lead_time [r]) (Fin 3)
  /\ feq (Dashboard.median_lead_time [r]) (Fin 3)
  /\ Dashboard.std_lead_time [r] = StdNaN.
Proof.
  intros Ho Hs.
  unfold Dashboard.mean_lead_time, Dashboard.median_lead_time,
    Dashboard.std_lead_time, Dashboard.lead_times, mean, median, std.
  simpl. rewrite Ho, Hs. simpl.
  replace (d + 3 - d)%Z with 3%Z by lia.
  repeat split; vm_compute; reflexivity.
Qed.

Lemma single_order_lead_time_statistics_witness :
  feq (Dashboard.mean_lead_time single_order_view) (Fin 3)
  /\ feq (Dashboard.median_lead_time single_order_view) (Fin 3)
  /\ Dashboard.std_lead_time single_order_view = StdNaN.
Proof.
  apply (single_order_lead_time_statistics
           (order "O1" (Some 10%Z) (Some 13%Z) "Home" "P1" 5 4 3 5) 10);
    reflexivity.
Defined.

(** C4, as stated, fails: the standard deviation of the single lead time is
    not 0. *)
Lemma single_order_deviation_is_not_zero :
  map Order_Date single_order_view = [Some 10%Z]
  /\ map Ship_Date single_order_view = [Some (10 + 3)%Z]
  /\ ~ deviation_is (Dashboard.std_lead_time single_order_view) 0.
Proof. repeat split. vm_compute. auto. Qed.

(** ** Orders without a date *)

Lemma dropna_lead_times (fdf : frame) :
  dropna (Dashboard.lead_times fdf) = map inject_Z (complete_lead_days fdf).
Proof.
  induction fdf as [|r fdf IH]; simpl; [reflexivity|].
  unfold days_between.
  destruct (Ship_Date r), (Order_Date r); simpl; now rewrite IH.
Qed.

Lemma complete_lead_days_filter (fdf : frame) :
  complete_lead_days (filter has_both_dates fdf) = complete_lead_days fdf.
Proof.
  induction fdf as [|r fdf IH]; [reflexivity|].
  cbn [filter]. destruct (has_both_dates r) eqn:E;
    unfold has_both_dates in E; cbn [complete_lead_days];
    destruct (Order_Date r), (Ship_Date r); try discriminate;
    now rewrite IH.
Qed.

Lemma lead_time_of_row (r : row) :
  days_between (Ship_Date r) (Order_Date r) =
  match Order_Date r, Ship_Date r with
  | Some o, Some s => Some (inject_Z (s - o))
  | _, _ => None
  end.
Proof. unfold days_between. now destruct (Ship_Date r), (Order_Date r). Qed.

(** C5: the lead time of an order is its ship date minus its order date in
    whole days; an order that misses a date has no lead time, and the mean,
    the median and the standard deviation are those of the lead times of
    the complete orders alone: taking the incomplete orders out of the view
    changes none of them, while counting them as zero would. *)
Theorem lead_time_excludes_undated_orders (fdf : frame) :
  Dashboard.lead_times fdf
  = map (fun r => match Order_Date r, Ship_Date r with
                  | Some o, Some s => Some (inject_Z (s - o))
                  | _, _ => None
                  end) fdf
  /\ Dashboard.mean_lead_time fdf
     = mean_values (map inject_Z (complete_lead_days fdf))
  /\ Dashboard.median_lead_time fdf
     = median_values (map inject_Z (complete_lead_days fdf))
  /\ Dashboard.std_lead_time fdf
     = std_values (map inject_Z (complete_lead_days fdf))
  /\ Output.avg_lead_time fdf
     = round1 (mean_values (map inject_Z (complete_lead_days fdf)))
  /\ Dashboard.mean_lead_time (filter has_both_dates fdf)
     = Dashboard.mean_lead_time fdf
  /\ Dashboard.median_lead_time (filter has_both_dates fdf)
     = Dashboard.median_lead_time fdf
  /\ Dashboard.std_lead_time (filter has_both_dates fdf)
     = Dashboard.std_lead_time fdf
  /\ ~ feq (mean (fillna_zero (Dashboard.lead_times undated_view)))
           (Dashboard.mean_lead_time undated_view).
Proof.
  unfold Dashboard.mean_lead_time, Dashboard.median_lead_time,
    Dashboard.std_lead_time, Output.avg_lead_time, mean, median, std.
  change (Output.Lead_Time fdf) with (Dashboard.lead_times fdf).
  rewrite !dropna_lead_times, complete_lead_days_filter.
  repeat split.
  - unfold Dashboard.lead_times. apply map_ext. exact lead_time_of_row.
  - vm_compute. discriminate.
Qed.

(** ** Rollups *)

(** The laws of a key order. *)
Class KeyLaws (K : Type) `{Key K} : Prop := {
  kcompare_eq : forall a b : K, kcompare a b = Eq -> a = b;
  kcompare_antisym : forall a b : K, kcompare a b = CompOpp (kcompare b a);
  kcompare_trans : forall a b c : K,
      kcompare a b = Lt -> kcompare b c = Lt -> kcompare a c = Lt
}.

#[export] Instance KeyLaws_timestamp : KeyLaws Z.
Proof.
  split; simpl.
  - apply Z.compare_eq.
  - intros a b. apply Z.compare_antisym.
  - intros a b c. rewrite !Z.compare_lt_iff. lia.
Qed.

#[export] Instance KeyLaws_string : KeyLaws string.
Proof.
  split; simpl.
  - apply String.compare_eq_iff.
  - apply String.compare_antisym.
  - intros a b c Hab Hbc.
    apply String_as_OT.cmp_lt in Hab, Hbc. apply String_as_OT.cmp_lt.
    eapply String_as_OT.lt_trans; eauto.
Qed.

Section GroupByFacts.

Context {K : Type} `{KeyLaws K}.

Lemma key_lt_gt (a b : K) : kcompare a b = Gt -> key_lt b a.
Proof.
  intros Hgt. unfold key_lt. rewrite kcompare_antisym, Hgt. reflexivity.
Qed.

Lemma add_to_group_keys (k : K) (v : option Q) (g : list (K * series)) (x : K) :
  In x (map fst (add_to_group k v g)) <-> x = k \/ In x (map fst g).
Proof.
  induction g as [|[k' vs] g IH]; simpl.
  - intuition.
  - destruct (kcompare k k') eqn:E; simpl.
    + apply kcompare_eq in E. subst. intuition.
    + intuition.
    + rewrite IH. intuition.
Qed.

Lemma add_to_group_sorted (k : K) (v : option Q) (g : list (K * series)) :
  StronglySorted key_lt (map fst g) ->
  StronglySorted key_lt (map fst (add_to_group k v g)).
Proof.
  induction g as [|[k' vs] g IH]; simpl; intros Hs.
  - repeat constructor.
  - inversion Hs as [|? ? Hs' Hall]; subst.
    destruct (kcompare k k') eqn:E; simpl.
    + now constructor.
    + constructor; [assumption|]. constructor; [exact E|].
      eapply Forall_impl; [|exact Hall].
      intros a Ha. eapply kcompare_trans; eauto.
    + constructor; [now apply IH|].
      apply Forall_forall. intros x Hx.
      apply add_to_group_keys in Hx. destruct Hx as [->|Hx].
      * now apply key_lt_gt.
      * rewrite Forall_forall in Hall. now apply Hall.
Qed.

Lemma fold_add_row_sorted (kvs : list (option K * option Q))
      (g : list (K * series)) :
  StronglySorted key_lt (map fst g) ->
  StronglySorted key_lt (map fst (fold_left add_row kvs g)).
Proof.
  revert g. induction kvs as [|[[k|] v] kvs IH]; simpl; intros g Hs; auto.
  apply IH. unfold add_row. simpl. now apply add_to_group_sorted.
Qed.

Lemma fold_add_row_keys (kvs : list (option K * option Q))
      (g : list (K * series)) (x : K) :
  In x (map fst (fold_left add_row kvs g))
  <-> In (Some x) (map fst kvs) \/ In x (map fst g).
Proof.
  revert g. induction kvs as [|[[k|] v] kvs IH]; simpl; intros g.
  - intuition.
  - rewrite IH. unfold add_row. simpl. rewrite add_to_group_keys.
    split; [intros [?|[->|?]]|intros [[E|?]|?]]; auto.
    inversion E. auto.
  - rewrite IH. unfold add_row. simpl.
    split; [intros [?|?]|intros [[E|?]|?]]; auto. discriminate.
Qed.

(** A rollup lists its bucket keys in strictly ascending order. *)
Lemma groupby_keys_ascending {V : Type} (agg : series -> V)
      (keys : list (option K)) (vals : series) :
  keys_ascending (groupby_agg agg keys vals).
Proof.
  unfold keys_ascending, groupby_agg, groups. rewrite map_map. simpl.
  apply fold_add_row_sorted. constructor.
Qed.

(** A rollup has a bucket for a key exactly when some row carries it. *)
Lemma groupby_keys_observed {V : Type} (agg : series -> V) (df : frame)
      (key : row -> option K) (val : row -> option Q) (x : K) :
  In x (map fst (groupby_agg agg (col key df) (col val df)))
  <-> exists r, In r df /\ key r = Some x.
Proof.
  unfold groupby_agg, groups. rewrite map_map. simpl.
  rewrite fold_add_row_keys. simpl.
  assert (E : map fst (combine (col key df) (col val df)) = col key df).
  { unfold col. induction df; simpl; congruence. }
  rewrite E. unfold col. rewrite in_map_iff.
  split; [intros [[r [? ?]]|[]]|intros [r [? ?]]]; eauto.
Qed.

End GroupByFacts.

(** *** Sorting a rollup by value *)

Lemma leb_total (a b : float) :
  isnan a = false -> isnan b = false -> Np.leb a b = true \/ Np.leb b a = true.
Proof.
  destruct a as [p| | |], b as [q| | |]; simpl; try discriminate; auto.
  intros _ _. rewrite !Qle_bool_iff.
  destruct (Qlt_le_dec p q); [left; now apply Qlt_le_weak|now right].
Qed.

Lemma leb_trans (a b c : float) :
  Np.leb a b = true -> Np.leb b c = true -> Np.leb a c = true.
Proof.
  destruct a as [p| | |], b as [q| | |], c as [r| | |]; simpl;
    try discriminate; auto.
  rewrite !Qle_bool_iff. apply Qle_trans.
Qed.

Section SortFacts.

Context {K : Type}.

Let row_le (a b : K * float) : Prop := Np.leb (snd a) (snd b) = true.
Let present (x : K * float) : Prop := isnan (snd x) = false.

Lemma insert_by_value_perm (x : K * float) (l : list (K * float)) :
  Permutation (insert_by_value x l) (x :: l).
Proof.
  induction l as [|y l IH]; simpl; [reflexivity|].
  destruct (Np.leb (snd x) (snd y)); [reflexivity|].
  rewrite IH. apply perm_swap.
Qed.

Lemma argsort_stable_perm (l : list (K * float)) :
  Permutation (argsort_stable l) l.
Proof.
  induction l as [|x l IH]; simpl; [reflexivity|].
  rewrite insert_by_value_perm. now constructor.
Qed.

Lemma insert_by_value_sorted (x : K * float) (l : list (K * float)) :
  present x -> Forall present l ->
  StronglySorted row_le l -> StronglySorted row_le (insert_by_value x l).
Proof.
  intros Hx. induction l as [|y l IH]; simpl; intros Hl Hs.
  - repeat constructor.
  - inversion Hs as [|? ? Hs' Hall]; subst.
    inversion Hl as [|? ? Hy Hl']; subst.
    destruct (Np.leb (snd x) (snd y)) eqn:E.
    + constructor; [assumption|]. constructor; [exact E|].
      eapply Forall_impl; [|exact Hall].
      intros a Ha. eapply leb_trans; eauto.
    + constructor; [now apply IH|].
      apply Forall_forall. intros a Ha.
      apply (Permutation_in _ (insert_by_value_perm x l)) in Ha.
      destruct Ha as [<-|Ha].
      * destruct (leb_total (snd x) (snd y) Hx Hy); [congruence|assumption].
      * rewrite Forall_forall in Hall. now apply Hall.
Qed.

Lemma argsort_stable_sorted (l : list (K * float)) :
  Forall present l -> StronglySorted row_le (argsort_stable l).
Proof.
  induction l as [|x l IH]; simpl; intros Hl; [constructor|].
  inversion Hl; subst. apply insert_by_value_sorted; auto.
  apply Forall_forall. intros a Ha.
  apply (Permutation_in _ (argsort_stable_perm l)) in Ha.
  rewrite Forall_forall in *. auto.
Qed.

Lemma StronglySorted_snoc {A : Type} (R : A -> A -> Prop) (l : list A) (x : A) :
  StronglySorted R l -> Forall (fun a => R a x) l ->
  StronglySorted R (l ++ [x]).
Proof.
  induction l as [|y l IH]; simpl; intros Hs Hall.
  - repeat constructor.
  - inversion Hs; subst. inversion Hall; subst.
    constructor; [auto|]. apply Forall_app. split; auto.
Qed.

Lemma StronglySorted_rev {A : Type} (R : A -> A -> Prop) (l : list A) :
  StronglySorted R l -> StronglySorted (fun a b => R b a) (rev l).
Proof.
  induction 1 as [|x l Hs IH Hall]; simpl; [constructor|].
  apply StronglySorted_snoc; [assumption|].
  apply Forall_forall. intros a Ha. apply in_rev in Ha.
  rewrite Forall_forall in Hall. auto.
Qed.

Lemma StronglySorted_map {A B : Type} (R : B -> B -> Prop) (f : A -> B)
      (l : list A) :
  StronglySorted (fun a b => R (f a) (f b)) l -> StronglySorted R (map f l).
Proof.
  induction 1 as [|x l Hs IH Hall]; simpl; constructor; auto.
  apply Forall_forall. intros b Hb. apply in_map_iff in Hb.
  destruct Hb as [a [<- Ha]]. rewrite Forall_forall in Hall. auto.
Qed.

Lemma filter_all {A : Type} (p : A -> bool) (l : list A) :
  Forall (fun x => p x = true) l -> filter p l = l.
Proof.
  induction 1 as [|x l Hx _ IH]; simpl; [reflexivity|].
  now rewrite Hx, IH.
Qed.

Lemma filter_none {A : Type} (p : A -> bool) (l : list A) :
  Forall (fun x => p x = false) l -> filter p l = [].
Proof.
  induction 1 as [|x l Hx _ IH]; simpl; [reflexivity|].
  now rewrite Hx.
Qed.

(** Without [nan] values, the table sorted by value is a rearrangement of
    the table whose values run from the largest to the smallest. *)
Lemma sort_values_desc_spec (l : list (K * float)) :
  Forall present l ->
  values_descending (sort_values_desc l)
  /\ Permutation (sort_values_desc l) l.
Proof.
  intros Hl. unfold sort_values_desc.
  rewrite filter_all, filter_none, app_nil_r.
  - split.
    + unfold values_descending. apply StronglySorted_map.
      apply (StronglySorted_rev row_le). apply argsort_stable_sorted.
      apply Forall_forall. intros a Ha. apply in_rev in Ha.
      rewrite Forall_forall in Hl. auto.
    + rewrite <- Permutation_rev, argsort_stable_perm.
      symmetry. apply Permutation_rev.
  - eapply Forall_impl; [|exact Hl]. auto.
  - eapply Forall_impl; [|exact Hl]. intros a Ha. unfold present in Ha.
    now rewrite Ha.
Qed.

End SortFacts.

Lemma groupby_sum_present {K : Type} `{Key K}
      (keys : list (option K)) (vals : series) :
  Forall (fun x => isnan (snd x) = false) (groupby_agg sum keys vals).
Proof.
  unfold groupby_agg. apply Forall_forall. intros x Hx.
  apply in_map_iff in Hx. destruct Hx as [g [<- _]]. reflexivity.
Qed.

Example cat_perf_two_categories :
  Output.cat_perf two_category_view = [("B", Fin 5); ("A", Fin 1)]%string.
Proof. vm_compute. reflexivity. Qed.

(** C6, as the code has it: the rollups by order date of both dashboards
    and the rollup by category of [app.py] list their buckets by key,
    ascending; the rollup by category of [output.py] lists the same buckets
    by value, from the largest to the smallest; in all of them a bucket is
    present exactly when some record of the view carries its key. *)
Theorem rollups_order_and_buckets (fdf : frame) :
  keys_ascending (Dashboard.df_time fdf)
  /\ keys_ascending (Dashboard.df_lead fdf)
  /\ keys_ascending (Dashboard.df_category fdf)
  /\ keys_ascending (Output.inventory_trend fdf)
  /\ values_descending (Output.cat_perf fdf)
  /\ Permutation (Output.cat_perf fdf)
       (groupby_agg sum (col Category fdf) (col Quantity_Delivered fdf))
  /\ (forall d, In d (map fst (Dashboard.df_time fdf))
                <-> exists r, In r fdf /\ Order_Date r = Some d)
  /\ (forall d, In d (map fst (Dashboard.df_lead fdf))
                <-> exists r, In r fdf /\ Order_Date r = Some d)
  /\ (forall d, In d (map fst (Output.inventory_trend fdf))
                <-> exists r, In r fdf /\ Order_Date r = Some d)
  /\ (forall c, In c (map fst (Dashboard.df_category fdf))
                <-> exists r, In r fdf /\ Category r = Some c)
  /\ (forall c, In c (map fst (Output.cat_perf fdf))
                <-> exists r, In r fdf /\ Category r = Some c).
Proof.
  destruct (sort_values_desc_spec
              (groupby_agg sum (col Category fdf) (col Quantity_Delivered fdf))
              (groupby_sum_present _ _)) as [Hdesc Hperm].
  repeat split; try apply groupby_keys_ascending; try assumption;
    try (now apply groupby_keys_observed);
    try (apply (groupby_keys_observed mean fdf Order_Date
                  (fun r => days_between (Ship_Date r) (Order_Date r)) d);
         assumption).
  - intros Hc. apply (groupby_keys_observed sum fdf Category Quantity_Delivered).
    eapply Permutation_in; [|exact Hc]. now apply Permutation_map.
  - intros Hc.
    apply (groupby_keys_observed sum fdf Category Quantity_Delivered) in Hc.
    eapply Permutation_in; [|exact Hc]. apply Permutation_map.
    now symmetry.
Qed.

(** C6, as stated, fails: the rollup by category of [output.py] is not in
    ascending key order. *)
Lemma cat_perf_not_sorted_by_key :
  ~ keys_ascending (Output.cat_perf two_category_view).
Proof.
  rewrite cat_perf_two_categories. unfold keys_ascending. simpl.
  intros Hs. inversion Hs as [|? ? _ Hall]; subst.
  inversion Hall as [|? ? Hlt _]; subst. discriminate Hlt.
Qed.

(** ** The tabular-file adapter *)

Import ExcelIngestor ApiIngestor Worlds.

Example read_excel_first_sheet :
  read_excel fs_ok "data/Global_Superstore.xlsx" (Index 0) = Return (Frame 3%nat)
  /\ read_excel fs_ok "data/Global_Superstore.xlsx" (Name "Returns")
     = Return (Frame 1%nat).
Proof. split; reflexivity. Qed.

(** C9: a path that does not exist gives the missing-file error; a failure
    while the workbook is parsed gives the adapter's exception, whose message
    carries the cause; without a selector every sheet is returned, keyed by
    its name. *)
Theorem load_excel_data_outcomes {DataFrame : Type}
        (fs : filesystem DataFrame) (filepath : string) :
  (path_exists fs filepath = false ->
   forall sel,
     load_excel_data fs filepath sel
     = Raise (FileNotFoundError ("File not found: " ++ filepath))
     /\ kind_of (FileNotFoundError ("File not found: " ++ filepath))
        = Some SourceUnavailable)
  /\ (path_exists fs filepath = true ->
      forall cause, open_workbook fs filepath = Raise cause ->
      forall sel,
        load_excel_data fs filepath sel
        = Raise (Exception ("Error loading Excel file: " ++ str cause))
        /\ kind_of (Exception ("Error loading Excel file: " ++ str cause))
           = Some SourceFormatError)
  /\ (path_exists fs filepath = true ->
      forall wb, open_workbook fs filepath = Return wb ->
        load_excel_data fs filepath PyNone = Return (Dict wb)).
Proof.
  unfold load_excel_data, read_excel. split; [|split].
  - intros Hmissing sel. now rewrite Hmissing.
  - intros Hthere cause Hcause sel. rewrite Hthere, Hcause. simpl.
    now destruct (truthy sel).
  - intros Hthere wb Hwb. now rewrite Hthere, Hwb.
Qed.

Lemma load_excel_data_outcomes_witness :
  load_excel_data fs_ok "missing.xlsx" (Name "Orders")
  = Raise (FileNotFoundError "File not found: missing.xlsx")
  /\ load_excel_data fs_corrupt "data/Global_Superstore.xlsx" (Name "Orders")
     = Raise (Exception "Error loading Excel file: File is not a zip file")
  /\ load_excel_data fs_ok "data/Global_Superstore.xlsx" PyNone
     = Return (Dict superstore).
Proof.
  split; [|split].
  - apply (proj1 (load_excel_data_outcomes fs_ok "missing.xlsx")).
    reflexivity.
  - apply (proj1 (proj2 (load_excel_data_outcomes fs_corrupt
                           "data/Global_Superstore.xlsx"))
             eq_refl (ValueError "File is not a zip file") eq_refl).
  - apply (proj2 (proj2 (load_excel_data_outcomes fs_ok
                           "data/Global_Superstore.xlsx"))); reflexivity.
Defined.

(** C10: a selector that is falsy without being [None] (the index 0, the
    empty name) is treated as no selector: the adapter returns all sheets
    keyed by name, not the one sheet selected. *)
Theorem falsy_selector_loads_all_sheets {DataFrame : Type}
        (fs : filesystem DataFrame) (filepath : string) (sel : selector) :
  sel <> PyNone ->
  truthy sel = false ->
  (sel = Index 0 \/ sel = Name "")
  /\ load_excel_data fs filepath sel = load_excel_data fs filepath PyNone
  /\ (path_exists fs filepath = true ->
      forall wb, open_workbook fs filepath = Return wb ->
        load_excel_data fs filepath sel = Return (Dict wb)).
Proof.
  intros Hsel Hfalsy. split; [|split].
  - destruct sel as [|s|i]; simpl in Hfalsy.
    + contradiction.
    + right. apply negb_false_iff, String.eqb_eq in Hfalsy. now subst.
    + left. apply negb_false_iff, Z.eqb_eq in Hfalsy. now subst.
  - unfold load_excel_data. now rewrite Hfalsy.
  - intros He wb Hwb. unfold load_excel_data, read_excel.
    now rewrite Hfalsy, He, Hwb.
Qed.

Lemma falsy_selector_loads_all_sheets_witness :
  load_excel_data fs_ok "data/Global_Superstore.xlsx" (Index 0)
  = Return (Dict superstore)
  /\ load_excel_data fs_ok "data/Global_Superstore.xlsx" (Name "")
     = Return (Dict superstore).
Proof.
  split.
  - apply (falsy_selector_loads_all_sheets fs_ok
             "data/Global_Superstore.xlsx" (Index 0));
      [discriminate | reflexivity | reflexivity | reflexivity].
  - apply (falsy_selector_loads_all_sheets fs_ok
             "data/Global_Superstore.xlsx" (Name ""));
      [discriminate | reflexivity | reflexivity | reflexivity].
Defined.

(** ** The orchestrator *)

Import Main.

Section RunFacts.

Context {DataFrame Product InventoryFrame : Type}.
Variable rows : DataFrame -> nat.
Variable inventory_rows : InventoryFrame -> nat.
Variable fs : filesystem DataFrame.
Variable requests_get : string -> result (response Product).
Variable simulate_inventory : list Product -> result InventoryFrame.

Let run : state * result unit :=
  main rows inventory_rows fs requests_get simulate_inventory initial.

(** X22: whatever the three sources do, the run returns normally and its
    last line reports completion: no exception leaves [main]. *)
Lemma main_always_completes :
  snd run = Return tt
  /\ last (stdout (fst run)) ""%string
     = "Pipeline (basic ingestors) completed."%string.
Proof.
  unfold run, main, bind, try_except, call, print, assign_excel_data,
    assign_products, assign_inventory_df, read_products, initial.
  cbn [stdout invoked excel_data products inventory_df].
  destruct (load_excel_data fs _ _) as [x|e1];
    destruct (fetch_fake_store_products requests_get) as [p|e2];
    cbn [stdout invoked excel_data products inventory_df fst snd];
    try destruct (simulate_inventory p) as [inv|e3];
    cbn [stdout invoked excel_data products inventory_df fst snd];
    split; try reflexivity; now rewrite last_last.
Qed.

(** The Excel step and the catalog step are entered in every run. *)
Lemma excel_and_catalog_always_invoked :
  In Excel (invoked (fst run)) /\ In Api (invoked (fst run)).
Proof.
  unfold run, main, bind, try_except, call, print, assign_excel_data,
    assign_products, assign_inventory_df, read_products, initial.
  cbn [stdout invoked excel_data products inventory_df].
  destruct (load_excel_data fs _ _) as [x|e1];
    destruct (fetch_fake_store_products requests_get) as [p|e2];
    cbn [stdout invoked excel_data products inventory_df fst snd];
    try destruct (simulate_inventory p) as [inv|e3];
    cbn [stdout invoked excel_data products inventory_df fst snd];
    simpl; auto.
Qed.

(** X23: the simulation is entered exactly when the catalog was fetched. *)
Lemma simulation_invoked_iff_catalog_fetched :
  In Simulation (invoked (fst run))
  <-> exists p, fetch_fake_store_products requests_get = Return p.
Proof.
  unfold run, main, bind, try_except, call, print, assign_excel_data,
    assign_products, assign_inventory_df, read_products, initial.
  cbn [stdout invoked excel_data products inventory_df].
  destruct (load_excel_data fs _ _) as [x|e1];
    destruct (fetch_fake_store_products requests_get) as [p|e2];
    cbn [stdout invoked excel_data products inventory_df fst snd];
    try destruct (simulate_inventory p) as [inv|e3];
    cbn [stdout invoked excel_data products inventory_df fst snd];
    simpl; split; eauto; intros H;
    repeat (destruct H as [H|H]; try discriminate);
    try contradiction; try (destruct H; discriminate).
Qed.

End RunFacts.

(** C7 at a run where only the catalog is unreachable, whatever the
    simulation would do with a product list: the run completes and the
    catalog failure is reported, but the simulation is never entered; the
    local [products] is unbound, and the simulation step reports a failure
    of its own. *)
Theorem catalog_failure_skips_simulation
        (simulate_inventory : list string -> result nat) :
  let run := main (fun n : nat => n) (fun n : nat => n) fs_ok requests_down
                  simulate_inventory initial in
  snd run = Return tt
  /\ invoked (fst run) = [Excel; Api]
  /\ inventory_df (fst run) = None
  /\ stdout (fst run)
     = ["Starting modular Supply Chain Pipeline...";
        "Loading Excel data...";
        "Loaded 3 Excel records.";
        "Fetching product data from API...";
        "Failed to fetch API data: API fetch failed: connection refused";
        "Simulating inventory...";
        "Inventory simulation failed: cannot access local variable 'products' where it is not associated with a value";
        "Pipeline (basic ingestors) completed."]%string.
Proof. repeat split. Qed.

Example run_with_all_sources :
  let run := main (fun n : nat => n) (fun n : nat => n) fs_ok requests_ok
                  simulate_ok initial in
  snd run = Return tt
  /\ invoked (fst run) = [Excel; Api; Simulation]
  /\ inventory_df (fst run) = Some 2%nat.
Proof. repeat split. Qed.


(** ** The delimited text format *)

Import Csv CsvTypes.
Local Open Scope Z_scope.

(** *** Numbers and dates *)

Lemma digit_char_spec (d : Z) :
  0 <= d < 10 ->
  is_digit (digit_char d) = true /\ digit_value (digit_char d) = d.
Proof.
  intros Hd.
  assert (E : d = 0 \/ d = 1 \/ d = 2 \/ d = 3 \/ d = 4 \/ d = 5 \/ d = 6
              \/ d = 7 \/ d = 8 \/ d = 9) by lia.
  repeat (destruct E as [->|E]; [split; reflexivity|]).
  subst. split; reflexivity.
Qed.

Lemma read_digits_digit (d : Z) (s : string) (a : Z) (k : nat) :
  0 <= d < 10 ->
  read_digits (String (digit_char d) s) a k = read_digits s (10 * a + d) (S k).
Proof.
  intros Hd. destruct (digit_char_spec d Hd) as [H1 H2].
  cbn [read_digits]. now rewrite H1, H2.
Qed.

Lemma read_digits_digits_of (fuel : nat) :
  forall (n : Z) (acc : string),
    0 <= n < 10 ^ Z.of_nat (S fuel) ->
    exists d : nat,
      forall (a : Z) (k : nat),
        read_digits (digits_of (S fuel) n acc) a k
        = read_digits acc (a * 10 ^ Z.of_nat (S d) + n) (S (k + d)).
Proof.
  induction fuel as [|fuel IH]; intros n acc Hn;
    cbn [digits_of]; destruct (n <? 10) eqn:E.
  - apply Z.ltb_lt in E. exists 0%nat. intros a k.
    rewrite Z.mod_small by lia. rewrite read_digits_digit by lia.
    f_equal; [|f_equal; lia]. change (10 ^ Z.of_nat 1) with 10. lia.
  - apply Z.ltb_ge in E. change (10 ^ Z.of_nat 1) with 10 in Hn. lia.
  - apply Z.ltb_lt in E. exists 0%nat. intros a k.
    rewrite Z.mod_small by lia. rewrite read_digits_digit by lia.
    f_equal; [|f_equal; lia]. change (10 ^ Z.of_nat 1) with 10. lia.
  - apply Z.ltb_ge in E.
    assert (Hq : 0 <= n / 10 < 10 ^ Z.of_nat (S fuel)).
    { split; [apply Z.div_pos; lia|].
      apply Z.div_lt_upper_bound; [lia|].
      rewrite (Nat2Z.inj_succ (S fuel)), Z.pow_succ_r in Hn by lia. lia. }
    destruct (IH (n / 10) (String (digit_char (n mod 10)) acc) Hq) as [d Hd].
    exists (S d). intros a k. rewrite Hd.
    rewrite read_digits_digit by (apply Z.mod_pos_bound; lia).
    f_equal; [|f_equal; lia].
    rewrite (Nat2Z.inj_succ (S d)), Z.pow_succ_r by lia.
    pose proof (Z.div_mod n 10). lia.
Qed.

Lemma digits_of_head (fuel : nat) :
  forall (n : Z) (acc : string),
    0 <= n ->
    exists c r, digits_of (S fuel) n acc = String c r /\ is_digit c = true.
Proof.
  induction fuel as [|fuel IH]; intros n acc Hn; cbn [digits_of];
    destruct (n <? 10) eqn:E;
    try (eexists; eexists; split; [reflexivity|];
         apply digit_char_spec, Z.mod_pos_bound; lia).
  apply IH. apply Z.div_pos; lia.
Qed.

Lemma digit_is_no_sign (c : ascii) (r : string) :
  is_digit c = true ->
  is_space c = false /\ read_sign (String c r) = (false, String c r).
Proof.
  destruct c as [[] [] [] [] [] [] [] []]; intros H;
    try discriminate H; split; reflexivity.
Qed.

Lemma int64_digits (z : Z) :
  in_int64 z = true -> 0 <= Z.abs z < 10 ^ Z.of_nat 19.
Proof.
  unfold in_int64. rewrite andb_true_iff, !Z.leb_le.
  change (10 ^ Z.of_nat 19) with 10000000000000000000.
  change (2 ^ 63) with 9223372036854775808. lia.
Qed.

(** An integer is read back from its decimal form. *)
Lemma parse_int_str_of_int (z : Z) :
  in_int64 z = true -> parse_int (str_of_int z) = Some z.
Proof.
  intros Hz. pose proof (int64_digits z Hz) as Hd.
  unfold str_of_int, parse_int. destruct (z <? 0) eqn:E.
  - apply Z.ltb_lt in E.
    destruct (read_digits_digits_of 18 (- z) EmptyString) as [d Hr]; [lia|].
    cbn [skip_spaces]. change (is_space "-") with false. cbn iota.
    cbn [read_sign]. rewrite Hr. cbn [read_digits Nat.eqb all_spaces negb].
    replace (- (0 * 10 ^ Z.of_nat (S d) + - z)) with z by lia.
    now rewrite Hz.
  - apply Z.ltb_ge in E.
    destruct (read_digits_digits_of 18 z EmptyString) as [d Hr]; [lia|].
    destruct (digits_of_head 18 z EmptyString E) as [c [r [Hc Hdig]]].
    destruct (digit_is_no_sign c r Hdig) as [Hsp Hsg].
    rewrite Hc. cbn [skip_spaces]. rewrite Hsp, Hsg, <- Hc, Hr.
    cbn [read_digits Nat.eqb all_spaces negb].
    replace (0 * 10 ^ Z.of_nat (S d) + z) with z by lia.
    now rewrite Hz.
Qed.

Lemma read_digits_zero_padded (w : nat) :
  forall (n : Z) (acc : string) (a : Z) (k : nat),
    0 <= n < 10 ^ Z.of_nat w ->
    read_digits (zero_padded w n acc) a k
    = read_digits acc (a * 10 ^ Z.of_nat w + n) (k + w).
Proof.
  induction w as [|w IH]; intros n acc a k Hn; cbn [zero_padded].
  - change (10 ^ Z.of_nat 0) with 1 in *. f_equal; [lia|f_equal; lia].
  - rewrite Nat2Z.inj_succ, Z.pow_succ_r in * by lia.
    rewrite IH.
    + rewrite read_digits_digit by (apply Z.mod_pos_bound; lia).
      pose proof (Z.div_mod n 10).
      f_equal; [lia|f_equal; lia].
    + split; [apply Z.div_pos; lia|].
      apply Z.div_lt_upper_bound; lia.
Qed.

Lemma days_in_month_le (y m : Z) : days_in_month y m <= 31.
Proof.
  unfold days_in_month.
  repeat match goal with |- context [if ?b then _ else _] => destruct b end;
    lia.
Qed.

(** A date is read back from its ISO form. *)
Lemma parse_date_str_of_date (d : date) :
  valid_date d = true -> parse_date (str_of_date d) = Some d.
Proof.
  intros Hv. pose proof Hv as Hv'. unfold valid_date in Hv'.
  rewrite !andb_true_iff, !Z.leb_le in Hv'.
  destruct Hv' as [[[[[Hy1 Hy2] Hm1] Hm2] Hd1] Hd2].
  pose proof (days_in_month_le (year d) (month d)) as Hd3.
  unfold parse_date, str_of_date.
  rewrite read_digits_zero_padded
    by (change (10 ^ Z.of_nat 4) with 10000; lia).
  cbn [read_digits]. change (is_digit "-") with false. cbn iota.
  rewrite read_digits_zero_padded
    by (change (10 ^ Z.of_nat 2) with 100; lia).
  cbn [read_digits]. change (is_digit "-") with false. cbn iota.
  rewrite read_digits_zero_padded
    by (change (10 ^ Z.of_nat 2) with 100; lia).
  cbn [read_digits Nat.add Nat.eqb andb String.eqb].
  replace (0 * 10 ^ Z.of_nat 4 + year d) with (year d) by lia.
  replace (0 * 10 ^ Z.of_nat 2 + month d) with (month d) by lia.
  replace (0 * 10 ^ Z.of_nat 2 + day d) with (day d) by lia.
  destruct d as [y m dd]. cbn [year month day] in *. now rewrite Hv.
Qed.

Lemma is_na_cases (tok : string) (P : string -> Prop) :
  Forall P na_values -> is_na tok = true -> P tok.
Proof.
  intros HP Hna. unfold is_na in Hna. apply existsb_exists in Hna.
  destruct Hna as [v [Hin Heq]]. apply String.eqb_eq in Heq. subst v.
  rewrite Forall_forall in HP. now apply HP.
Qed.

(** No missing-value string reads as an integer or as a date. *)
Lemma na_is_no_number (tok : string) :
  is_na tok = true -> parse_int tok = None /\ parse_date tok = None.
Proof.
  apply (is_na_cases tok (fun t => parse_int t = None /\ parse_date t = None)).
  unfold na_values. repeat constructor.
Qed.

Lemma str_of_int_not_na (z : Z) :
  in_int64 z = true -> is_na (str_of_int z) = false.
Proof.
  intros Hz. destruct (is_na (str_of_int z)) eqn:E; [|reflexivity].
  apply na_is_no_number in E. rewrite parse_int_str_of_int in E by assumption.
  destruct E; discriminate.
Qed.

Lemma str_of_date_not_na (d : date) :
  valid_date d = true -> is_na (str_of_date d) = false.
Proof.
  intros Hd. destruct (is_na (str_of_date d)) eqn:E; [|reflexivity].
  apply na_is_no_number in E. rewrite parse_date_str_of_date in E by assumption.
  destruct E; discriminate.
Qed.

(** *** The tokenizer reads back what the writer wrote *)

Lemma run_app (a b : string) (t : tokenizer) :
  run (a ++ b) t = run b (run a t).
Proof.
  revert t. induction a as [|c a IH]; intros t; simpl; [reflexivity|].
  apply IH.
Qed.

Lemma append_assoc (a b c : string) : ((a ++ b) ++ c = a ++ (b ++ c))%string.
Proof. induction a as [|x a IH]; simpl; [reflexivity|]. now rewrite IH. Qed.

Lemma append_nil_r (a : string) : (a ++ EmptyString)%string = a.
Proof. induction a as [|x a IH]; simpl; [reflexivity|]. now rewrite IH. Qed.

(** Inside quotes every character is data, and a doubled quote is one
    quote. *)
Lemma run_escaped (s : string) :
  forall (f : string) (l : list string) (ls : list (list string)),
    run (escaped s)
        {| state := IN_QUOTED_FIELD; field := f; line := l; lines := ls |}
    = {| state := QUOTE_IN_QUOTED_FIELD; field := f ++ s; line := l;
         lines := ls |}.
Proof.
  induction s as [|c s IH]; intros f l ls.
  - simpl. now rewrite append_nil_r.
  - cbn [escaped]. destruct (Ascii.eqb c QUOTE) eqn:E.
    + apply Ascii.eqb_eq in E. subst c.
      cbn [run]. unfold step at 2. cbn [state]. rewrite Ascii.eqb_refl.
      unfold step, set_state. cbn [state]. rewrite Ascii.eqb_refl.
      unfold push_char. cbn [field line lines]. rewrite IH.
      now rewrite append_assoc.
    + cbn [run]. unfold step. cbn [state]. rewrite E.
      unfold push_char. cbn [field line lines]. rewrite IH.
      now rewrite append_assoc.
Qed.

Lemma plain_spec (c : ascii) :
  plain c = true ->
  Ascii.eqb c LF = false /\ Ascii.eqb c CR = false
  /\ Ascii.eqb c QUOTE = false /\ Ascii.eqb c COMMA = false.
Proof.
  unfold plain, special.
  destruct (Ascii.eqb c LF), (Ascii.eqb c CR), (Ascii.eqb c QUOTE),
    (Ascii.eqb c COMMA); simpl; intros H; try discriminate; auto.
Qed.

(** Outside quotes the plain characters of a field are data. *)
Lemma run_plain (s : string) :
  forall (f : string) (l : list string) (ls : list (list string)),
    needs_quotes s = false -> no_cr s = true ->
    run s {| state := IN_FIELD; field := f; line := l; lines := ls |}
    = {| state := IN_FIELD; field := f ++ s; line := l; lines := ls |}.
Proof.
  induction s as [|c s IH]; intros f l ls Hq Hcr.
  - simpl. now rewrite append_nil_r.
  - cbn [needs_quotes no_cr] in Hq, Hcr.
    apply orb_false_iff in Hq. apply andb_true_iff in Hcr.
    destruct Hq as [Hq1 Hq2], Hcr as [Hc1 Hc2].
    assert (Hp : plain c = true) by (unfold plain; now rewrite Hq1, Hc1).
    destruct (plain_spec c Hp) as [E1 [E2 [E3 E4]]].
    cbn [run]. unfold step. cbn [state]. rewrite E1, E2, E4.
    unfold push_char. cbn [field line lines]. rewrite IH by assumption.
    now rewrite append_assoc.
Qed.

Lemma run_write_field (f : string) (m : mode) (l : list string)
      (ls : list (list string)) :
  ready m -> no_cr f = true ->
  holds f m l ls
        (run (write_field f)
             {| state := m; field := EmptyString; line := l; lines := ls |}).
Proof.
  intros Hm Hcr. unfold write_field. destruct (needs_quotes f) eqn:Hq.
  - cbn [run].
    assert (E : step {| state := m; field := EmptyString; line := l;
                        lines := ls |} QUOTE
                = {| state := IN_QUOTED_FIELD; field := EmptyString;
                     line := l; lines := ls |})
      by (destruct Hm; subst m; reflexivity).
    rewrite E, run_escaped. unfold holds. cbn. repeat split; auto.
  - destruct f as [|c s].
    + unfold holds. cbn. repeat split; auto.
    + cbn [needs_quotes no_cr] in Hq, Hcr.
      apply orb_false_iff in Hq. apply andb_true_iff in Hcr.
      destruct Hq as [Hq1 Hq2], Hcr as [Hc1 Hc2].
      assert (Hp : plain c = true) by (unfold plain; now rewrite Hq1, Hc1).
      destruct (plain_spec c Hp) as [E1 [E2 [E3 E4]]].
      cbn [run].
      assert (E : step {| state := m; field := EmptyString; line := l;
                          lines := ls |} c
                  = {| state := IN_FIELD; field := String c EmptyString;
                       line := l; lines := ls |}).
      { destruct Hm; subst m; unfold step, step_start_record,
          step_start_field; cbn [state]; now rewrite ?E1, ?E2, ?E3, ?E4. }
      rewrite E, run_plain by assumption. unfold holds. cbn.
      repeat split; auto.
Qed.

Lemma step_comma (f : string) (m : mode) (l : list string)
      (ls : list (list string)) (t : tokenizer) :
  ready m -> holds f m l ls t ->
  step t COMMA
  = {| state := START_FIELD; field := EmptyString; line := l ++ [f];
       lines := ls |}.
Proof.
  intros Hm [Hf [Hl [Hls Hst]]]. destruct t as [st f' l' ls'].
  cbn in Hf, Hl, Hls, Hst. subst.
  destruct Hst as [->|[->|[_ ->]]]; try reflexivity.
  destruct Hm; subst m; reflexivity.
Qed.

Lemma step_line_end (f : string) (m : mode) (l : list string)
      (ls : list (list string)) (t : tokenizer) :
  ready m -> holds f m l ls t ->
  (m = START_RECORD -> f <> EmptyString \/ state t <> START_RECORD) ->
  step t LF
  = {| state := START_RECORD; field := EmptyString; line := [];
       lines := ls ++ [l ++ [f]] |}.
Proof.
  intros Hm [Hf [Hl [Hls Hst]]] Hblank. destruct t as [st f' l' ls'].
  cbn in Hf, Hl, Hls, Hst, Hblank. subst.
  destruct Hst as [->|[->|[Hf ->]]]; try reflexivity.
  destruct Hm; subst m; [|reflexivity].
  destruct (Hblank eq_refl) as [H|H]; contradiction.
Qed.

(** A written line is read as its fields. *)
Lemma run_join_fields (fields : list string) :
  forall (m : mode) (l : list string) (ls : list (list string)),
    ready m -> fields <> [] -> all_no_cr fields = true ->
    (m = START_RECORD -> fields <> [EmptyString]) ->
    run (join_fields fields ++ String LF EmptyString)
        {| state := m; field := EmptyString; line := l; lines := ls |}
    = {| state := START_RECORD; field := EmptyString; line := [];
         lines := ls ++ [l ++ fields] |}.
Proof.
  induction fields as [|f fields IH]; intros m l ls Hm Hne Hcr Hblank;
    [contradiction|].
  cbn [all_no_cr] in Hcr. apply andb_true_iff in Hcr. destruct Hcr as [Hf Hcr].
  pose proof (run_write_field f m l ls Hm Hf) as Hh.
  destruct fields as [|g fields].
  - cbn [join_fields]. rewrite run_app. cbn [run].
    apply (step_line_end f m l ls); auto.
    intros ->. destruct f as [|c s]; [now contradiction Hblank|].
    left. discriminate.
  - cbn [join_fields]. rewrite append_assoc, run_app.
    cbn [append run]. rewrite (step_comma f m l ls) by assumption.
    rewrite IH; try assumption.
    + now rewrite <- app_assoc.
    + now right.
    + discriminate.
    + discriminate.
Qed.

Lemma run_write_row (fields : list string) (ls : list (list string)) :
  fields <> [] -> all_no_cr fields = true ->
  run (write_row fields)
      {| state := START_RECORD; field := EmptyString; line := [];
         lines := ls |}
  = {| state := START_RECORD; field := EmptyString; line := [];
       lines := ls ++ [fields] |}.
Proof.
  intros Hne Hcr. unfold write_row.
  destruct fields as [|[|c s] [|g fields]]; try contradiction;
    try (apply (run_join_fields _ START_RECORD []);
         [now left|discriminate|assumption|discriminate]).
  reflexivity.
Qed.

Lemma run_write_rows (rows : list (list string)) :
  forall ls : list (list string),
    Forall writable rows ->
    run (write_rows rows)
        {| state := START_RECORD; field := EmptyString; line := [];
           lines := ls |}
    = {| state := START_RECORD; field := EmptyString; line := [];
         lines := ls ++ rows |}.
Proof.
  induction rows as [|r rows IH]; intros ls Hw.
  - simpl. now rewrite app_nil_r.
  - inversion Hw as [|? ? [Hne Hcr] Hw']; subst.
    cbn [write_rows]. rewrite run_app, run_write_row, IH by assumption.
    now rewrite <- app_assoc.
Qed.

(** Lines without a bare carriage return are read back as written. *)
Lemma tokenize_write_rows (rows : list (list string)) :
  Forall writable rows -> tokenize (write_rows rows) = Some rows.
Proof.
  intros Hw. unfold tokenize, start. now rewrite run_write_rows.
Qed.

(** *** The readers give back the cells *)

Lemma forallb_false_of {A : Type} (p : A -> bool) (l : list A) (x : A) :
  In x l -> p x = false -> forallb p l = false.
Proof.
  intros Hin Hp. destruct (forallb p l) eqn:E; [|reflexivity].
  rewrite forallb_forall in E. rewrite (E x Hin) in Hp. discriminate.
Qed.

Lemma convert_na (ty : dtype) : convert ty EmptyString = NA.
Proof. reflexivity. Qed.

Section Column.

(** The cells of one column and the tokens they are exported as. *)
Variable ty : coltype.
Variable cells : list cell.
Hypothesis typed : forall c, In c cells -> cell_has ty c = true.

Let toks : list string := map str_of_cell cells.

Lemma int_column_inferred (c : cell) :
  ty = IntColumn -> In c cells -> infer toks = int64.
Proof.
  intros Hty _. unfold infer.
  assert (H1 : forallb (fun tok => negb (is_na tok)) toks = true).
  { apply forallb_forall. intros tok Htok. apply in_map_iff in Htok.
    destruct Htok as [c' [<- Hc']]. pose proof (typed c' Hc') as Ht.
    rewrite Hty in Ht.
    destruct c'; try discriminate. cbn [cell_has] in Ht.
    cbn [str_of_cell]. now rewrite str_of_int_not_na. }
  assert (H2 : forallb (fun tok => is_some (parse_int tok)) toks = true).
  { apply forallb_forall. intros tok Htok. apply in_map_iff in Htok.
    destruct Htok as [c' [<- Hc']]. pose proof (typed c' Hc') as Ht.
    rewrite Hty in Ht.
    destruct c'; try discriminate. cbn [cell_has] in Ht.
    cbn [str_of_cell]. now rewrite parse_int_str_of_int. }
  now rewrite H1, H2.
Qed.

Lemma bool_column_inferred (b : bool) :
  ty = BoolColumn -> In (Bool b) cells -> infer toks = bool_.
Proof.
  intros Hty Hin. unfold infer.
  assert (Htok : In (str_of_cell (Bool b)) toks) by now apply in_map.
  assert (H1 : forallb (fun tok => is_some (parse_int tok)) toks = false).
  { apply (forallb_false_of _ _ _ Htok). now destruct b. }
  assert (H2 : forallb is_float
                 (filter (fun tok => negb (is_na tok)) toks) = false).
  { apply (forallb_false_of _ _ (str_of_cell (Bool b))).
    - apply filter_In. split; [assumption|now destruct b].
    - now destruct b. }
  assert (H3 : forallb (fun tok => is_some (parse_bool tok))
                 (filter (fun tok => negb (is_na tok)) toks) = true).
  { apply forallb_forall. intros tok Hf. apply filter_In in Hf.
    destruct Hf as [Hf Hna]. apply in_map_iff in Hf.
    destruct Hf as [c' [<- Hc']]. pose proof (typed c' Hc') as Ht.
    rewrite Hty in Ht.
    destruct c' as [| | |[|]| |]; try discriminate; reflexivity. }
  now rewrite H1, andb_false_r, H2, H3.
Qed.

Lemma date_column_all_dates : ty = DateColumn -> all_dates toks = true.
Proof.
  intros Hty. unfold all_dates. apply forallb_forall. intros tok Htok.
  apply in_map_iff in Htok. destruct Htok as [c' [<- Hc']].
  pose proof (typed c' Hc') as Ht. rewrite Hty in Ht.
  destruct c'; try discriminate; [reflexivity|]. cbn [cell_has] in Ht.
  cbn [str_of_cell]. rewrite parse_date_str_of_date by assumption.
  apply orb_true_r.
Qed.

(** The reader of the column maps the text of each of its cells back to
    the cell. *)
Lemma reader_gives_back (parse_dates : list string) (name : string) (c : cell) :
  Bool.eqb (existsb (String.eqb name) parse_dates) (is_date_column ty) = true ->
  (ty = TextColumn ->
   forallb is_na toks || is_object (infer toks) = true) ->
  In c cells ->
  reader parse_dates name toks (str_of_cell c) = c.
Proof.
  intros Hname Hstable Hin. pose proof (typed c Hin) as Hc.
  apply Bool.eqb_prop in Hname. unfold reader. rewrite Hname.
  assert (Hcases : ty = IntColumn \/ ty = BoolColumn \/ ty = TextColumn
                   \/ ty = DateColumn) by (destruct ty; auto).
  destruct Hcases as [E|[E|[E|E]]]; rewrite E in Hc; rewrite E;
    cbn [is_date_column andb].
  - rewrite (int_column_inferred c E Hin).
    destruct c; try discriminate. cbn [cell_has] in Hc. cbn [str_of_cell].
    unfold convert.
    now rewrite str_of_int_not_na, parse_int_str_of_int.
  - destruct c as [| | |b| |]; try discriminate; [apply convert_na|].
    rewrite (bool_column_inferred b E Hin). now destruct b.
  - destruct c as [| | | |s|]; try discriminate; [apply convert_na|].
    cbn [cell_has] in Hc. apply andb_true_iff in Hc. destruct Hc as [Hna _].
    apply negb_true_iff in Hna.
    specialize (Hstable E). apply orb_true_iff in Hstable.
    destruct Hstable as [Hall|Hobj].
    + rewrite forallb_forall in Hall.
      rewrite (Hall s) in Hna; [discriminate|].
      change s with (str_of_cell (Str s)). now apply in_map.
    + destruct (infer toks); try discriminate. cbn [str_of_cell].
      unfold convert. now rewrite Hna.
  - rewrite (date_column_all_dates E).
    destruct c as [| | | | |d]; try discriminate; [reflexivity|].
    cbn [cell_has] in Hc. cbn [str_of_cell]. unfold convert_date.
    now rewrite parse_date_str_of_date.
Qed.

End Column.

Lemma first_exported (r : list cell) :
  first (map str_of_cell r) = str_of_cell (hd NA r).
Proof. now destruct r. Qed.

Lemma rest_exported (r : list cell) :
  rest (map str_of_cell r) = map str_of_cell (tl r).
Proof. now destruct r. Qed.

Lemma first_column_exported (rows : list (list cell)) :
  map first (map (map str_of_cell) rows)
  = map str_of_cell (map (hd NA) rows).
Proof.
  rewrite !map_map. apply map_ext. exact first_exported.
Qed.

Lemma rest_columns_exported (rows : list (list cell)) :
  map rest (map (map str_of_cell) rows)
  = map (map str_of_cell) (map (@tl cell) rows).
Proof.
  rewrite !map_map. apply map_ext. exact rest_exported.
Qed.

Lemma record_has_cons (ty : coltype) (tys : list coltype) (r : list cell) :
  record_has (ty :: tys) r = true ->
  cell_has ty (hd NA r) = true /\ record_has tys (tl r) = true
  /\ r = hd NA r :: tl r.
Proof.
  destruct r as [|c r]; cbn [record_has]; [discriminate|].
  rewrite andb_true_iff. cbn. tauto.
Qed.

(** Every record is read back from its exported fields. *)
Lemma read_record_exported (parse_dates : list string) (names : list string) :
  forall (tys : list coltype) (rows : list (list cell)),
    header_has parse_dates names tys = true ->
    (forall r, In r rows -> record_has tys r = true) ->
    text_stays_text tys (map (map str_of_cell) rows) = true ->
    forall r, In r rows ->
      read_record (readers parse_dates names (map (map str_of_cell) rows))
                  (map str_of_cell r)
      = r.
Proof.
  induction names as [|n names IH]; intros [|ty tys] rows Hh Hrows Hs r Hin;
    try discriminate.
  - specialize (Hrows r Hin). destruct r; [reflexivity|discriminate].
  - cbn [header_has] in Hh. rewrite !andb_true_iff in Hh.
    destruct Hh as [[[_ _] Hname] Hh].
    cbn [text_stays_text] in Hs. apply andb_true_iff in Hs.
    destruct Hs as [Hs1 Hs2].
    rewrite first_column_exported in Hs1.
    rewrite rest_columns_exported in Hs2.
    cbn [readers]. rewrite first_column_exported, rest_columns_exported.
    destruct r as [|c r]; [now specialize (Hrows [] Hin)|].
    cbn [map read_record]. f_equal.
    + apply (reader_gives_back ty (map (hd NA) rows)).
      * intros c0 Hcin. apply in_map_iff in Hcin.
        destruct Hcin as [r0 [<- Hr0]].
        now destruct (record_has_cons ty tys r0 (Hrows r0 Hr0)).
      * exact Hname.
      * intros ->. exact Hs1.
      * change c with (hd NA (c :: r)). now apply in_map.
    + apply (IH tys (map (@tl cell) rows)); try assumption.
      * intros r0 Hr0. apply in_map_iff in Hr0.
        destruct Hr0 as [r1 [<- Hr1]].
        now destruct (record_has_cons ty tys r1 (Hrows r1 Hr1)) as [_ [? _]].
      * change r with (tl (c :: r)). now apply in_map.
Qed.

(** *** The exported lines can be written and read *)

Lemma digit_char_no_cr (d : Z) :
  0 <= d < 10 -> Ascii.eqb (digit_char d) CR = false.
Proof.
  intros Hd.
  assert (E : d = 0 \/ d = 1 \/ d = 2 \/ d = 3 \/ d = 4 \/ d = 5 \/ d = 6
              \/ d = 7 \/ d = 8 \/ d = 9) by lia.
  repeat (destruct E as [->|E]; [reflexivity|]).
  now subst.
Qed.

Lemma no_cr_digits_of (fuel : nat) :
  forall (n : Z) (acc : string),
    0 <= n -> no_cr acc = true -> no_cr (digits_of fuel n acc) = true.
Proof.
  induction fuel as [|fuel IH]; intros n acc Hn Hacc; cbn [digits_of];
    [assumption|].
  assert (H : no_cr (String (digit_char (n mod 10)) acc) = true).
  { cbn [no_cr]. rewrite digit_char_no_cr by (apply Z.mod_pos_bound; lia).
    exact Hacc. }
  destruct (n <? 10); [assumption|].
  apply IH; [apply Z.div_pos; lia|assumption].
Qed.

Lemma no_cr_zero_padded (w : nat) :
  forall (n : Z) (acc : string),
    0 <= n -> no_cr acc = true -> no_cr (zero_padded w n acc) = true.
Proof.
  induction w as [|w IH]; intros n acc Hn Hacc; cbn [zero_padded];
    [assumption|].
  apply IH; [apply Z.div_pos; lia|].
  cbn [no_cr]. rewrite digit_char_no_cr by (apply Z.mod_pos_bound; lia).
  exact Hacc.
Qed.

Lemma no_cr_str_of_cell (ty : coltype) (c : cell) :
  cell_has ty c = true -> no_cr (str_of_cell c) = true.
Proof.
  destruct ty, c as [|z| |[|]|s|d]; cbn [cell_has]; intros H;
    try discriminate; try reflexivity.
  - unfold str_of_cell, str_of_int. destruct (z <? 0) eqn:E.
    + apply Z.ltb_lt in E. cbn [no_cr].
      apply no_cr_digits_of; [lia|reflexivity].
    + apply Z.ltb_ge in E. apply no_cr_digits_of; [lia|reflexivity].
  - apply andb_true_iff in H. tauto.
  - unfold valid_date in H. rewrite !andb_true_iff, !Z.leb_le in H.
    unfold str_of_cell, str_of_date.
    apply no_cr_zero_padded; [lia|]. cbn [no_cr]. cbn [Ascii.eqb andb negb].
    change (Ascii.eqb "-" CR) with false. cbn [negb andb].
    apply no_cr_zero_padded; [lia|]. cbn [no_cr].
    change (Ascii.eqb "-" CR) with false. cbn [negb andb].
    apply no_cr_zero_padded; [lia|reflexivity].
Qed.

Lemma record_has_writable (tys : list coltype) :
  forall r : list cell,
    record_has tys r = true ->
    all_no_cr (map str_of_cell r) = true /\ length r = length tys.
Proof.
  induction tys as [|ty tys IH]; intros [|c r] H; try discriminate.
  - split; reflexivity.
  - cbn [record_has] in H. apply andb_true_iff in H. destruct H as [Hc Hr].
    destruct (IH r Hr) as [H1 H2]. cbn [map all_no_cr length].
    rewrite (no_cr_str_of_cell ty c Hc), H1, H2. split; reflexivity.
Qed.

Lemma header_has_writable (parse_dates : list string) (names : list string) :
  forall tys : list coltype,
    header_has parse_dates names tys = true ->
    all_no_cr names = true
    /\ existsb (String.eqb EmptyString) names = false
    /\ length names = length tys.
Proof.
  induction names as [|n names IH]; intros [|ty tys] H; try discriminate.
  - repeat split.
  - cbn [header_has] in H. rewrite !andb_true_iff in H.
    destruct H as [[[Hcr Hne] _] Hh]. destruct (IH tys Hh) as [H1 [H2 H3]].
    cbn [all_no_cr existsb length]. rewrite Hcr, H1, H2, H3.
    apply negb_true_iff in Hne. rewrite Hne. repeat split.
Qed.

Lemma map_fixed {A : Type} (f : A -> A) (l : list A) :
  (forall x, In x l -> f x = x) -> map f l = l.
Proof.
  induction l as [|x l IH]; intros H; cbn [map]; [reflexivity|].
  rewrite (H x (or_introl eq_refl)), IH; [reflexivity|].
  intros y Hy. apply H. now right.
Qed.





(** * Further properties of the code *)

From Stdlib Require Import Lqa.

(** ** The filter of both dashboards *)

Lemma map_combine_maps {A B C D : Type} (f : B * C -> D) (g : A -> B)
      (h : A -> C) (l : list A) :
  map f (combine (map g l) (map h l)) = map (fun x => f (g x, h x)) l.
Proof.
  induction l as [|x l IH]; cbn [map combine]; [reflexivity|].
  now rewrite IH.
Qed.

Lemma filter_filter {A : Type} (p q : A -> bool) (l : list A) :
  filter q (filter p l) = filter (fun x => p x && q x) l.
Proof.
  induction l as [|x l IH]; cbn [filter]; [reflexivity|].
  destruct (p x); cbn [filter andb]; [destruct (q x)|]; now rewrite IH.
Qed.

Lemma dashboard_filter_is_filter (df : frame) (lo hi : option Z)
      (selected : string) :
  Dashboard.df_filtered df (lo, hi) selected = filter (keeps lo hi selected) df.
Proof.
  unfold Dashboard.df_filtered, Dashboard.mask, keeps, in_window.
  cbn [fst snd]. destruct (String.eqb selected "All").
  - rewrite select_map_filter. apply filter_ext. intros r.
    now rewrite orb_true_l, andb_true_r.
  - rewrite (map_combine_maps (fun bc => fst bc && snd bc)).
    cbn [fst snd]. now rewrite select_map_filter.
Qed.

Lemma output_filter_is_filter (df : frame) (lo hi : option Z)
      (selected : string) :
  Output.filtered_df df lo hi selected = filter (keeps lo hi selected) df.
Proof.
  unfold Output.filtered_df, keeps, in_window.
  rewrite select_map_filter. destruct (String.eqb selected "All").
  - apply filter_ext. intros r. now rewrite orb_true_l, andb_true_r.
  - rewrite select_map_filter, filter_filter. reflexivity.
Qed.

(** X1: the filtered view is the sub-sequence of the records, in their
    original order, whose order date lies in the inclusive window and whose
    category is the selected one (any category when "All" is selected). *)
Theorem filtered_view_characterised (df : frame) (lo hi : option Z)
        (selected : string) :
  Dashboard.df_filtered df (lo, hi) selected = filter (keeps lo hi selected) df
  /\ forall r, In r (Dashboard.df_filtered df (lo, hi) selected)
               <-> In r df
                   /\ (exists d a b, Order_Date r = Some d /\ lo = Some a
                                     /\ hi = Some b /\ a <= d <= b)
                   /\ (selected = "All"%string \/ Category r = Some selected).
Proof.
  split; [apply dashboard_filter_is_filter|].
  intros r. rewrite dashboard_filter_is_filter, filter_In.
  unfold keeps, in_window, ge_ts, le_ts, eq_str.
  rewrite !andb_true_iff, orb_true_iff, String.eqb_eq.
  split.
  - intros [Hin [[H1 H2] H3]]. split; [assumption|]. split.
    + destruct (Order_Date r) as [d|], lo as [a|], hi as [b|];
        try discriminate.
      exists d, a, b. apply Z.leb_le in H1, H2. repeat split; auto.
    + destruct H3 as [H3|H3]; [now left|right].
      destruct (Category r) as [c|]; [|discriminate].
      apply String.eqb_eq in H3. now subst.
  - intros [Hin [[d [a [b [-> [-> [-> [H1 H2]]]]]]] H3]].
    split; [assumption|]. split.
    + split; now apply Z.leb_le.
    + destruct H3 as [H3|H3]; [now left|right].
      rewrite H3. apply String.eqb_refl.
Qed.

(** X2: the filter of [output.py] (a window, then a category selection on
    the result) and the filter of [app.py] (one combined mask) return the
    same view. *)
Theorem dashboards_filter_alike (df : frame) (lo hi : option Z)
        (selected : string) :
  Output.filtered_df df lo hi selected
  = Dashboard.df_filtered df (lo, hi) selected.
Proof.
  now rewrite output_filter_is_filter, dashboard_filter_is_filter.
Qed.

Lemma filter_idempotent {A : Type} (p : A -> bool) (l : list A) :
  filter p (filter p l) = filter p l.
Proof.
  rewrite filter_filter. apply filter_ext. intros x. now destruct (p x).
Qed.

(** X3: filtering is idempotent: filtering a filtered view again with the
    same window and category changes nothing. *)
Theorem filter_twice (df : frame) (lo hi : option Z) (selected : string) :
  Dashboard.df_filtered (Dashboard.df_filtered df (lo, hi) selected)
                        (lo, hi) selected
  = Dashboard.df_filtered df (lo, hi) selected.
Proof.
  rewrite !dashboard_filter_is_filter. apply filter_idempotent.
Qed.

(** X4: filtering by a window inside a wider one gives the same view
    whether it is applied to the records or to the view of the wider
    window. *)
Theorem filter_within_wider_window (df : frame) (a b a' b' : Z)
        (selected : string) :
  a' <= a -> b <= b' ->
  Dashboard.df_filtered
    (Dashboard.df_filtered df (Some a', Some b') selected)
    (Some a, Some b) selected
  = Dashboard.df_filtered df (Some a, Some b) selected.
Proof.
  intros Ha Hb. rewrite !dashboard_filter_is_filter, filter_filter.
  apply filter_ext. intros r. unfold keeps, in_window, ge_ts, le_ts.
  destruct (Order_Date r) as [d|]; [|reflexivity].
  destruct (a <=? d) eqn:E1, (d <=? b) eqn:E2;
    rewrite ?andb_false_r, ?andb_false_l, ?andb_true_l; try reflexivity.
  apply Z.leb_le in E1, E2.
  assert (H1 : (a' <=? d) = true) by (apply Z.leb_le; lia).
  assert (H2 : (d <=? b') = true) by (apply Z.leb_le; lia).
  rewrite H1, H2. cbn [andb].
  now destruct (String.eqb selected "All" || eq_str (Category r) selected).
Qed.

Lemma filter_within_wider_window_witness :
  Dashboard.df_filtered
    (Dashboard.df_filtered small_view (Some 9, Some 12) "All")
    (Some 10, Some 10) "All"
  = Dashboard.df_filtered small_view (Some 10, Some 10) "All".
Proof.
  apply (filter_within_wider_window small_view 10 10 9 12 "All"); lia.
Defined.

Lemma filter_nothing {A : Type} (p : A -> bool) (l : list A) :
  (forall x, p x = false) -> filter p l = [].
Proof.
  intros H. induction l as [|x l IH]; cbn [filter]; [reflexivity|].
  now rewrite H.
Qed.

(** X5: a window with a missing bound, or whose start lies after its end,
    gives the empty view and no error. *)
Theorem degenerate_window_is_empty (df : frame) (bound : option Z) (a b : Z)
        (selected : string) :
  b < a ->
  Dashboard.df_filtered df (Some a, Some b) selected = []
  /\ Dashboard.df_filtered df (None, bound) selected = []
  /\ Dashboard.df_filtered df (bound, None) selected = [].
Proof.
  intros Hab. rewrite !dashboard_filter_is_filter.
  repeat split; apply filter_nothing; intros r;
    unfold keeps, in_window, ge_ts, le_ts;
    destruct (Order_Date r) as [d|]; try reflexivity.
  - destruct (a <=? d) eqn:E1, (d <=? b) eqn:E2; try reflexivity.
    apply Z.leb_le in E1, E2. lia.
  - destruct bound; now rewrite ?andb_false_r.
Qed.

Lemma degenerate_window_is_empty_witness :
  Dashboard.df_filtered small_view (Some 12, Some 10) "All" = [].
Proof.
  apply (degenerate_window_is_empty small_view None 12 10 "All"). lia.
Defined.

(** X6: selecting a category other than "All" returns the records of the
    "All" view that carry exactly this category; records without a category
    are never among them. *)
Theorem category_selection_refines_all (df : frame) (lo hi : option Z)
        (selected : string) :
  selected <> "All"%string ->
  Dashboard.df_filtered df (lo, hi) selected
  = filter (fun r => eq_str (Category r) selected)
           (Dashboard.df_filtered df (lo, hi) "All")
  /\ Forall (fun r => Category r = Some selected)
            (Dashboard.df_filtered df (lo, hi) selected).
Proof.
  intros Hsel. apply String.eqb_neq in Hsel.
  rewrite !dashboard_filter_is_filter, filter_filter. split.
  - apply filter_ext. intros r. unfold keeps. rewrite Hsel.
    change (String.eqb "All" "All") with true. cbn [orb].
    now rewrite andb_true_r.
  - apply Forall_forall. intros r Hr. apply filter_In in Hr.
    destruct Hr as [_ Hr]. unfold keeps in Hr. rewrite Hsel in Hr.
    apply andb_true_iff in Hr. destruct Hr as [_ Hr]. cbn [orb] in Hr.
    unfold eq_str in Hr. destruct (Category r) as [c|]; [|discriminate].
    apply String.eqb_eq in Hr. now subst.
Qed.

Lemma category_selection_refines_all_witness :
  Dashboard.df_filtered small_view (Some 10, Some 11) "Toys"
  = filter (fun r => eq_str (Category r) "Toys")
           (Dashboard.df_filtered small_view (Some 10, Some 11) "All").
Proof.
  apply (category_selection_refines_all small_view (Some 10) (Some 11) "Toys").
  discriminate.
Defined.

(** ** Statistics of the lead times *)

Local Open Scope Q_scope.

Lemma Qlen_cons (x : Q) (l : list Q) : Qlen (x :: l) == Qlen l + 1.
Proof.
  unfold Qlen. cbn [length]. rewrite Nat2Z.inj_succ, <- Z.add_1_r.
  now rewrite inject_Z_plus.
Qed.

Lemma Qlen_nonneg (l : list Q) : 0 <= Qlen l.
Proof.
  unfold Qlen. change 0 with (inject_Z 0). rewrite <- Zle_Qle. lia.
Qed.

Lemma Qlen_pos (x : Q) (l : list Q) : 0 < Qlen (x :: l).
Proof.
  rewrite Qlen_cons. pose proof (Qlen_nonneg l).
  apply Qlt_le_trans with (0 + 1); [reflexivity|].
  now apply Qplus_le_l.
Qed.

Lemma total_bounds (a b : Q) (l : list Q) :
  Forall (fun x => a <= x /\ x <= b) l ->
  Qlen l * a <= total l /\ total l <= Qlen l * b.
Proof.
  induction 1 as [|x l [Hx1 Hx2] _ [IH1 IH2]].
  - unfold Qlen. cbn [length total fold_right].
    change (inject_Z (Z.of_nat 0)) with 0. rewrite !Qmult_0_l.
    split; apply Qle_refl.
  - cbn [total fold_right]. fold (total l). rewrite Qlen_cons. split.
    + setoid_replace ((Qlen l + 1) * a) with (a + Qlen l * a) by ring.
      now apply Qplus_le_compat.
    + setoid_replace ((Qlen l + 1) * b) with (b + Qlen l * b) by ring.
      now apply Qplus_le_compat.
Qed.

Lemma mean_values_bounds (a b : Q) (l : list Q) :
  l <> [] -> Forall (fun x => a <= x /\ x <= b) l ->
  exists q, mean_values l = Fin q /\ a <= q /\ q <= b.
Proof.
  intros Hne Hall. destruct l as [|x l]; [contradiction|].
  destruct (total_bounds a b (x :: l) Hall) as [H1 H2].
  pose proof (Qlen_pos x l) as Hpos.
  eexists. split; [reflexivity|]. split.
  - apply Qle_shift_div_l; [assumption|]. now rewrite Qmult_comm.
  - apply Qle_shift_div_r; [assumption|]. now rewrite Qmult_comm.
Qed.

Lemma insert_sorted_perm (x : Q) (l : list Q) :
  Permutation (insert_sorted x l) (x :: l).
Proof.
  induction l as [|y l IH]; cbn [insert_sorted]; [reflexivity|].
  destruct (Qle_bool x y); [reflexivity|].
  rewrite IH. apply perm_swap.
Qed.

Lemma sort_values_perm (l : list Q) : Permutation (sort_values l) l.
Proof.
  induction l as [|x l IH]; cbn; [reflexivity|].
  fold (sort_values l). rewrite insert_sorted_perm. now constructor.
Qed.

Lemma nth_within (a b : Q) (l : list Q) (i : nat) :
  Forall (fun x => a <= x /\ x <= b) l -> (i < length l)%nat ->
  a <= nth i l 0 /\ nth i l 0 <= b.
Proof.
  intros Hall Hi. rewrite Forall_forall in Hall.
  apply Hall. now apply nth_In.
Qed.

Lemma even_half (n : nat) :
  Nat.even n = true -> (0 < n)%nat ->
  (n / 2 - 1 < n)%nat /\ (n / 2 < n)%nat.
Proof.
  intros _ Hn. pose proof (Nat.div_lt n 2 Hn). lia.
Qed.

Lemma median_values_bounds (a b : Q) (l : list Q) :
  l <> [] -> Forall (fun x => a <= x /\ x <= b) l ->
  exists q, median_values l = Fin q /\ a <= q /\ q <= b.
Proof.
  intros Hne Hall. destruct l as [|x l]; [contradiction|].
  unfold median_values.
  set (s := sort_values (x :: l)).
  assert (Hs : Forall (fun y => a <= y /\ y <= b) s).
  { apply Forall_forall. intros y Hy.
    apply (Permutation_in _ (sort_values_perm (x :: l))) in Hy.
    rewrite Forall_forall in Hall. now apply Hall. }
  assert (Hlen : (0 < length s)%nat).
  { unfold s. rewrite (Permutation_length (sort_values_perm (x :: l))).
    cbn. lia. }
  destruct (Nat.even (length s)) eqn:E.
  - destruct (even_half _ E Hlen) as [H1 H2].
    destruct (nth_within a b s _ Hs H1) as [L1 U1].
    destruct (nth_within a b s _ Hs H2) as [L2 U2].
    eexists. split; [reflexivity|]. split.
    + apply Qle_shift_div_l; [reflexivity|].
      setoid_replace (a * 2) with (a + a) by ring.
      now apply Qplus_le_compat.
    + apply Qle_shift_div_r; [reflexivity|].
      setoid_replace (b * 2) with (b + b) by ring.
      now apply Qplus_le_compat.
  - eexists. split; [reflexivity|].
    apply nth_within; [assumption|]. apply Nat.div_lt; lia.
Qed.

(** X7: when at least one order of the view has both dates, the mean and
    the median lead time are numbers, and they lie between any two bounds
    that hold for every lead time of the view. *)
Theorem lead_time_mean_median_within_bounds (fdf : frame) (a b : Q) :
  within a b (Dashboard.lead_times fdf) ->
  dropna (Dashboard.lead_times fdf) <> [] ->
  (exists q, Dashboard.mean_lead_time fdf = Fin q /\ a <= q /\ q <= b)
  /\ (exists q, Dashboard.median_lead_time fdf = Fin q /\ a <= q /\ q <= b).
Proof.
  intros Hw Hne. split.
  - now apply mean_values_bounds.
  - now apply median_values_bounds.
Qed.

Lemma lead_time_mean_median_within_bounds_witness :
  (exists q, Dashboard.mean_lead_time small_view = Fin q /\ 2 <= q /\ q <= 4)
  /\ (exists q, Dashboard.median_lead_time small_view = Fin q
                /\ 2 <= q /\ q <= 4).
Proof.
  apply (lead_time_mean_median_within_bounds small_view 2 4).
  - repeat constructor; discriminate.
  - discriminate.
Defined.

Lemma total_nonneg (l : list Q) : Forall (fun x => 0 <= x) l -> 0 <= total l.
Proof.
  induction 1 as [|x l Hx _ IH]; cbn [total fold_right]; [apply Qle_refl|].
  fold (total l). setoid_replace 0 with (0 + 0) by ring.
  now apply Qplus_le_compat.
Qed.

Lemma sq_dev_nonneg (m x : Q) : 0 <= sq_dev m x.
Proof.
  unfold sq_dev. destruct (Qlt_le_dec (x - m) 0) as [Hneg|Hpos].
  - setoid_replace ((x - m) * (x - m)) with ((- (x - m)) * (- (x - m)))
      by ring.
    apply Qmult_le_0_compat; apply (Qopp_le_compat (x - m) 0);
      now apply Qlt_le_weak.
  - now apply Qmult_le_0_compat.
Qed.

Lemma Qlen_two (x y : Q) (l : list Q) : 0 < Qlen (x :: y :: l) - 1.
Proof.
  rewrite Qlen_cons. setoid_replace (Qlen (y :: l) + 1 - 1) with (Qlen (y :: l))
    by ring.
  apply Qlen_pos.
Qed.

(** X8: the standard deviation of the lead times is [nan] exactly when
    fewer than two orders of the view have both dates; otherwise it is the
    square root of a variance that is not negative. *)
Theorem lead_time_deviation_defined (fdf : frame) :
  (Dashboard.std_lead_time fdf = StdNaN
   <-> (length (complete_lead_days fdf) < 2)%nat)
  /\ ((2 <= length (complete_lead_days fdf))%nat ->
      exists v, Dashboard.std_lead_time fdf = SqrtOf v /\ 0 <= v).
Proof.
  unfold Dashboard.std_lead_time, std. rewrite dropna_lead_times.
  destruct (complete_lead_days fdf) as [|x [|y l]]; cbn [map length];
    unfold std_values.
  - split; [split; [lia|reflexivity]|lia].
  - split; [split; [lia|reflexivity]|lia].
  - split; [split; [discriminate|lia]|]. intros _.
    eexists. split; [reflexivity|].
    apply Qle_shift_div_l; [apply Qlen_two|]. rewrite Qmult_0_l.
    apply total_nonneg. apply Forall_forall. intros q Hq.
    apply in_map_iff in Hq. destruct Hq as [z [<- _]]. apply sq_dev_nonneg.
Qed.

Lemma lead_time_deviation_defined_witness :
  exists v, Dashboard.std_lead_time small_view = SqrtOf v /\ 0 <= v.
Proof.
  apply (proj2 (lead_time_deviation_defined small_view)). cbn. lia.
Defined.

Lemma no_complete_lead_days (fdf : frame) :
  (forall r, In r fdf -> has_both_dates r = false) ->
  complete_lead_days fdf = [].
Proof.
  induction fdf as [|r fdf IH]; intros H; cbn [complete_lead_days];
    [reflexivity|].
  pose proof (H r (or_introl eq_refl)) as Hr. unfold has_both_dates in Hr.
  destruct (Order_Date r), (Ship_Date r); try discriminate;
    apply IH; intros r' Hr'; apply H; now right.
Qed.

(** X9: in a view where no order has both dates (the empty view among
    them) every lead-time statistic is [nan]; none is 0 and nothing is
    raised. *)
Theorem lead_time_statistics_without_dates (fdf : frame) :
  (forall r, In r fdf -> has_both_dates r = false) ->
  Dashboard.mean_lead_time fdf = NaN
  /\ Dashboard.median_lead_time fdf = NaN
  /\ Dashboard.std_lead_time fdf = StdNaN
  /\ Output.avg_lead_time fdf = NaN.
Proof.
  intros H.
  unfold Dashboard.mean_lead_time, Dashboard.median_lead_time,
    Dashboard.std_lead_time, Output.avg_lead_time, mean, median, std.
  change (Output.Lead_Time fdf) with (Dashboard.lead_times fdf).
  rewrite !dropna_lead_times, (no_complete_lead_days fdf H).
  repeat split.
Qed.

Lemma lead_time_statistics_without_dates_witness :
  Dashboard.mean_lead_time [empty_row] = NaN
  /\ Dashboard.median_lead_time [empty_row] = NaN
  /\ Dashboard.std_lead_time [empty_row] = StdNaN
  /\ Output.avg_lead_time [empty_row] = NaN.
Proof.
  apply (lead_time_statistics_without_dates [empty_row]).
  intros r [<-|[]]. reflexivity.
Defined.

(** ** The rounded indicators of output.py *)

Lemma rint_cases (q : Q) :
  (rint q = Qfloor q /\ q - inject_Z (Qfloor q) <= 1 # 2)
  \/ (rint q = (Qfloor q + 1)%Z /\ 1 # 2 <= q - inject_Z (Qfloor q)).
Proof.
  unfold rint. destruct (q - inject_Z (Qfloor q) ?= 1 # 2) eqn:E.
  - apply Qeq_alt in E. destruct (Z.even (Qfloor q)); [left|right];
      (split; [reflexivity|rewrite E; apply Qle_refl]).
  - apply Qlt_alt in E. left. split; [reflexivity|now apply Qlt_le_weak].
  - apply Qgt_alt in E. right. split; [reflexivity|now apply Qlt_le_weak].
Qed.

(** Rounding to an integer moves a number by at most one half. *)
Lemma rint_error (q : Q) :
  q - (1 # 2) <= inject_Z (rint q) /\ inject_Z (rint q) <= q + (1 # 2).
Proof.
  pose proof (Qfloor_le q) as Hlo. pose proof (Qlt_floor q) as Hhi.
  rewrite inject_Z_plus in Hhi. change (inject_Z 1) with 1 in Hhi.
  destruct (rint_cases q) as [[-> H]|[-> H]];
    rewrite ?inject_Z_plus; change (inject_Z 1) with 1;
    set (f := inject_Z (Qfloor q)) in *; split; lra.
Qed.

(** Rounding to an integer stays within integer bounds. *)
Lemma rint_between (m M : Z) (q : Q) :
  inject_Z m <= q -> q <= inject_Z M -> (m <= rint q <= M)%Z.
Proof.
  intros Hm HM.
  pose proof (Qfloor_resp_le _ _ Hm) as H1. rewrite Qfloor_Z in H1.
  pose proof (Qfloor_resp_le _ _ HM) as H2. rewrite Qfloor_Z in H2.
  destruct (rint_cases q) as [[-> _]|[-> H]]; [lia|].
  split; [lia|].
  assert (Hlt : inject_Z (Qfloor q) < inject_Z M) by lra.
  rewrite <- Zlt_Qlt in Hlt. lia.
Qed.

Lemma round_decimal_error (q : Q) :
  q - (1 # 20) <= round_decimal q /\ round_decimal q <= q + (1 # 20).
Proof.
  unfold round_decimal. destruct (rint_error (q * 10)) as [H1 H2].
  set (n := inject_Z (rint (q * 10))) in *. split.
  - apply Qle_shift_div_l; [reflexivity|]. lra.
  - apply Qle_shift_div_r; [reflexivity|]. lra.
Qed.

Lemma round_decimal_between (m M : Z) (q : Q) :
  inject_Z m <= q -> q <= inject_Z M ->
  inject_Z m <= round_decimal q /\ round_decimal q <= inject_Z M.
Proof.
  intros Hm HM. unfold round_decimal.
  destruct (rint_between (m * 10) (M * 10) (q * 10)) as [H1 H2].
  - rewrite inject_Z_mult. change (inject_Z 10) with 10. lra.
  - rewrite inject_Z_mult. change (inject_Z 10) with 10. lra.
  - rewrite Zle_Qle, inject_Z_mult in H1, H2.
    change (inject_Z 10) with 10 in H1, H2. split.
    + now apply Qle_shift_div_l.
    + now apply Qle_shift_div_r.
Qed.

Lemma is_zero_false (q : Q) : ~ q == 0 -> is_zero q = false.
Proof.
  intros H. unfold is_zero. destruct (Qeq_bool q 0) eqn:E; [|reflexivity].
  apply Qeq_bool_iff in E. contradiction.
Qed.

(** X10: when the ordered quantities do not sum to zero, the fill rate that
    [output.py] reports is within 0.05 of sum(delivered)/sum(ordered) x 100,
    and when the stock does not sum to zero the reported turnover is within
    0.05 of sum(delivered)/sum(inventory). *)
Theorem reported_ratios_accuracy (fdf : frame) :
  let delivered := total (dropna (col Quantity_Delivered fdf)) in
  let ordered := total (dropna (col Quantity_Ordered fdf)) in
  let stock := total (dropna (col Inventory fdf)) in
  (~ ordered == 0 ->
   exists q, Output.fill_rate fdf = Fin q
             /\ delivered / ordered * 100 - (1 # 20) <= q
             /\ q <= delivered / ordered * 100 + (1 # 20))
  /\ (~ stock == 0 ->
      exists q, Output.inventory_turnover fdf = Fin q
                /\ delivered / stock - (1 # 20) <= q
                /\ q <= delivered / stock + (1 # 20)).
Proof.
  intros delivered ordered stock.
  unfold Output.fill_rate, Output.inventory_turnover, sum.
  fold delivered ordered stock. split; intros Hnz; unfold div;
    rewrite (is_zero_false _ Hnz); cbn [mul round1];
    eexists; (split; [reflexivity|apply round_decimal_error]).
Qed.

Lemma reported_ratios_accuracy_witness :
  (exists q, Output.fill_rate small_view = Fin q
             /\ 7 / 8 * 100 - (1 # 20) <= q /\ q <= 7 / 8 * 100 + (1 # 20))
  /\ (exists q, Output.inventory_turnover small_view = Fin q
                /\ 7 / 4 - (1 # 20) <= q /\ q <= 7 / 4 + (1 # 20)).
Proof.
  split.
  - apply (proj1 (reported_ratios_accuracy small_view)). discriminate.
  - apply (proj2 (reported_ratios_accuracy small_view)). discriminate.
Defined.

Lemma delivered_ordered_totals (fdf : frame) :
  Forall delivered_within_ordered fdf ->
  0 <= total (dropna (col Quantity_Delivered fdf))
  /\ total (dropna (col Quantity_Delivered fdf))
     <= total (dropna (col Quantity_Ordered fdf)).
Proof.
  induction 1 as [|r fdf [d [o [Hd [Ho [H0 H1]]]]] _ [IH0 IH1]].
  - cbn. split; apply Qle_refl.
  - unfold col in *. cbn [map dropna]. rewrite Hd, Ho.
    cbn [dropna total fold_right].
    fold (total (dropna (map Quantity_Delivered fdf))).
    fold (total (dropna (map Quantity_Ordered fdf))).
    split; lra.
Qed.

(** X11: when every order of the view has its two quantities, with
    0 <= delivered <= ordered, and something was ordered at all, the fill
    rate that [output.py] reports is a number between 0 and 100. *)
Theorem fill_rate_is_a_percentage (fdf : frame) :
  Forall delivered_within_ordered fdf ->
  0 < total (dropna (col Quantity_Ordered fdf)) ->
  exists q, Output.fill_rate fdf = Fin q /\ 0 <= q /\ q <= 100.
Proof.
  intros Hrows Hpos. destruct (delivered_ordered_totals fdf Hrows) as [H0 H1].
  unfold Output.fill_rate, sum.
  set (delivered := total (dropna (col Quantity_Delivered fdf))) in *.
  set (ordered := total (dropna (col Quantity_Ordered fdf))) in *.
  unfold div. rewrite is_zero_false by lra. cbn [mul round1].
  eexists. split; [reflexivity|].
  apply (round_decimal_between 0 100).
  - change (inject_Z 0) with 0.
    apply Qmult_le_0_compat; [|discriminate].
    apply Qle_shift_div_l; [assumption|]. lra.
  - change (inject_Z 100) with (1 * 100).
    apply Qmult_le_compat_r; [|discriminate].
    apply Qle_shift_div_r; [assumption|]. lra.
Qed.

Lemma fill_rate_is_a_percentage_witness :
  exists q, Output.fill_rate small_view = Fin q /\ 0 <= q /\ q <= 100.
Proof.
  apply (fill_rate_is_a_percentage small_view).
  - repeat constructor.
    + exists 4, 5. repeat split; discriminate.
    + exists 3, 3. repeat split; discriminate.
  - reflexivity.
Defined.

(** ** Counts *)

Lemma count_true_zero (m : list bool) :
  count_true m = 0%nat <-> forall b, In b m -> b = false.
Proof.
  unfold count_true. induction m as [|b m IH]; cbn [filter].
  - split; [intros _ b []|reflexivity].
  - destruct b; cbn [length].
    + split; [discriminate|]. intros H. now specialize (H true (or_introl eq_refl)).
    + rewrite IH. split; intros H b Hb.
      * destruct Hb as [<-|Hb]; auto.
      * apply H. now right.
Qed.

Lemma count_true_le (m : list bool) : (count_true m <= length m)%nat.
Proof. unfold count_true. apply filter_length_le. Qed.

(** X12: [output.py] shows the stockout warning exactly when some record of
    the view has its inventory under its reorder level; its count of
    products at risk is bounded by the number of records, not by the number
    of products. *)
Theorem stockout_warning_shown (fdf : frame) :
  (Output.products_at_risk fdf = 0%nat
   <-> forall r, In r fdf -> lt_cell (Inventory r) (Reorder_Level r) = false)
  /\ (Output.products_at_risk fdf <= length fdf)%nat.
Proof.
  unfold Output.products_at_risk. split.
  - rewrite count_true_zero. split.
    + intros H r Hr. apply H.
      now apply (in_map (fun r => lt_cell (Inventory r) (Reorder_Level r))).
    + intros H b Hb. apply in_map_iff in Hb. destruct Hb as [r [<- Hr]]. auto.
  - rewrite <- (length_map (fun r => lt_cell (Inventory r) (Reorder_Level r))).
    apply count_true_le.
Qed.

Lemma nunique_le_length (s : list (option string)) :
  (nunique s <= length s)%nat.
Proof.
  unfold nunique.
  apply Nat.le_trans with (length (dropna s)).
  - apply NoDup_incl_length; [apply NoDup_nodup|].
    intros x Hx. now apply nodup_In in Hx.
  - induction s as [|[x|] s IH]; cbn [dropna length]; lia.
Qed.

(** X13: the numbers of distinct orders and of distinct products that the
    dashboards show never exceed the number of records of the view, and the
    number of products at risk of [app.py] never exceeds the number of
    records under their reorder point. *)
Theorem distinct_counts_bounded (fdf : frame) :
  (Dashboard.total_orders fdf <= length fdf)%nat
  /\ (Output.total_orders fdf <= length fdf)%nat
  /\ (Dashboard.total_products fdf <= length fdf)%nat
  /\ (Dashboard.products_at_risk fdf
      <= length (filter Dashboard.at_risk fdf))%nat.
Proof.
  unfold Dashboard.total_orders, Output.total_orders, Dashboard.total_products,
    Dashboard.products_at_risk, col.
  rewrite select_map_filter.
  repeat split;
    match goal with
    | |- (nunique (map ?f ?l) <= _)%nat =>
        rewrite <- (length_map f l); apply nunique_le_length
    end.
Qed.

(** ** What a rollup holds *)

Section GroupContents.

Context {K : Type} `{KeyLaws K}.

Lemma kcompare_refl (a : K) : kcompare a a = Eq.
Proof.
  pose proof (kcompare_antisym a a) as E.
  destruct (kcompare a a); try reflexivity; discriminate.
Qed.

Lemma kcompare_eq_iff (a b : K) : kcompare a b = Eq <-> a = b.
Proof.
  split; [apply kcompare_eq|]. intros ->. apply kcompare_refl.
Qed.

Lemma lookup_above (k : K) (g : list (K * series)) :
  Forall (key_lt k) (map fst g) -> lookup k g = [].
Proof.
  induction g as [|[k' vs] g IH]; cbn [map fst lookup]; intros Hall;
    [reflexivity|].
  inversion Hall as [|? ? Hlt Hall']; subst. unfold key_lt in Hlt.
  rewrite kcompare_antisym, Hlt. cbn [CompOpp]. now apply IH.
Qed.

Lemma lookup_add_to_group (k : K) (v : option Q) (g : list (K * series))
      (x : K) :
  StronglySorted key_lt (map fst g) ->
  lookup x (add_to_group k v g)
  = lookup x g ++ match kcompare k x with Eq => [v] | _ => [] end.
Proof.
  induction g as [|[k' vs] g IH]; cbn [map fst add_to_group lookup];
    intros Hs.
  - now destruct (kcompare k x).
  - inversion Hs as [|? ? Hs' Hall]; subst.
    destruct (kcompare k k') eqn:E; cbn [lookup].
    + apply kcompare_eq in E. subst k'.
      destruct (kcompare k x); now rewrite ?app_nil_r.
    + destruct (kcompare k x) eqn:Ex.
      * apply kcompare_eq in Ex. subst x.
        rewrite (kcompare_antisym k' k), E. cbn [CompOpp].
        rewrite lookup_above; [reflexivity|].
        eapply Forall_impl; [|exact Hall].
        intros a Ha. eapply kcompare_trans; eauto.
      * now rewrite app_nil_r.
      * now rewrite app_nil_r.
    + destruct (kcompare k' x) eqn:Ex.
      * apply kcompare_eq in Ex. subst x. rewrite E. now rewrite app_nil_r.
      * now apply IH.
      * now apply IH.
Qed.

Lemma lookup_fold_add_row (kvs : list (option K * option Q)) :
  forall (g : list (K * series)) (x : K),
    StronglySorted key_lt (map fst g) ->
    lookup x (fold_left add_row kvs g) = lookup x g ++ cells_of x kvs.
Proof.
  induction kvs as [|[[k|] v] kvs IH]; intros g x Hs; cbn [fold_left].
  - unfold cells_of. cbn. now rewrite app_nil_r.
  - unfold add_row at 2. cbn [fst snd].
    rewrite IH by now apply add_to_group_sorted.
    rewrite lookup_add_to_group by assumption.
    unfold cells_of. cbn [filter fst snd].
    rewrite <- app_assoc. now destruct (kcompare k x).
  - unfold add_row at 2. cbn [fst]. now rewrite IH.
Qed.

Lemma lookup_entry (k : K) (vs : series) (g : list (K * series)) :
  StronglySorted key_lt (map fst g) -> In (k, vs) g -> lookup k g = vs.
Proof.
  induction g as [|[k' vs'] g IH]; cbn [map fst lookup]; intros Hs Hin;
    [contradiction|].
  inversion Hs as [|? ? Hs' Hall]; subst. destruct Hin as [E|Hin].
  - inversion E; subst. now rewrite kcompare_refl.
  - assert (Hlt : key_lt k' k).
    { rewrite Forall_forall in Hall. apply Hall.
      now apply (in_map fst g (k, vs)). }
    unfold key_lt in Hlt. rewrite Hlt. now apply IH.
Qed.

Lemma cells_of_frame (key : row -> option K) (val : row -> option Q)
      (k : K) (df : frame) :
  cells_of k (combine (col key df) (col val df))
  = col val (filter (in_bucket key k) df).
Proof.
  unfold cells_of, col, in_bucket.
  induction df as [|r df IH]; cbn [map combine filter fst snd];
    [reflexivity|].
  destruct (key r) as [k'|]; [destruct (kcompare k' k)|];
    cbn [map snd]; now rewrite IH.
Qed.

(** The value of a bucket is the aggregate of the cells of the records of
    that bucket, taken in row order. *)
Lemma groupby_bucket_value {V : Type} (agg : series -> V)
      (key : row -> option K) (val : row -> option Q) (df : frame)
      (k : K) (v : V) :
  In (k, v) (groupby_agg agg (col key df) (col val df)) ->
  v = agg (col val (filter (in_bucket key k) df)).
Proof.
  unfold groupby_agg. intros Hin. apply in_map_iff in Hin.
  destruct Hin as [[k' vs] [E Hin]]. cbn [fst snd] in E.
  inversion E; subst. f_equal.
  assert (Hs : StronglySorted key_lt
                 (map fst (groups (col key df) (col val df)))).
  { unfold groups. apply fold_add_row_sorted. constructor. }
  rewrite <- (lookup_entry k vs _ Hs Hin). unfold groups.
  rewrite lookup_fold_add_row by constructor.
  cbn [lookup app]. apply cells_of_frame.
Qed.

Lemma sorted_keys_NoDup (l : list K) : StronglySorted key_lt l -> NoDup l.
Proof.
  induction 1 as [|a l Hs IH Hall]; constructor; [|assumption].
  intros Hin. rewrite Forall_forall in Hall. specialize (Hall a Hin).
  unfold key_lt in Hall. rewrite kcompare_refl in Hall. discriminate.
Qed.

End GroupContents.

(** X14: in every rollup the value of a bucket is the aggregate (mean or
    sum) of the cells of exactly the records that carry the key of the
    bucket; the order of [cat_perf] by value does not change what a bucket
    holds. *)
Theorem rollup_bucket_values (fdf : frame) :
  (forall d v, In (d, v) (Dashboard.df_time fdf) ->
     v = mean (col Inventory_Level (filter (in_bucket Order_Date d) fdf)))
  /\ (forall d v, In (d, v) (Dashboard.df_lead fdf) ->
     v = Dashboard.mean_lead_time (filter (in_bucket Order_Date d) fdf))
  /\ (forall c v, In (c, v) (Dashboard.df_category fdf) ->
     v = mean (col Fill_Rate (filter (in_bucket Category c) fdf)))
  /\ (forall d v, In (d, v) (Output.inventory_trend fdf) ->
     v = sum (col Inventory (filter (in_bucket Order_Date d) fdf)))
  /\ (forall c v, In (c, v) (Output.cat_perf fdf) ->
     v = sum (col Quantity_Delivered (filter (in_bucket Category c) fdf))).
Proof.
  repeat split; intros k v Hin.
  - now apply (groupby_bucket_value mean Order_Date Inventory_Level).
  - now apply (groupby_bucket_value mean Order_Date
                 (fun r => days_between (Ship_Date r) (Order_Date r))).
  - now apply (groupby_bucket_value mean Category Fill_Rate).
  - now apply (groupby_bucket_value sum Order_Date Inventory).
  - apply (groupby_bucket_value sum Category Quantity_Delivered).
    destruct (sort_values_desc_spec
                (groupby_agg sum (col Category fdf)
                             (col Quantity_Delivered fdf))
                (groupby_sum_present _ _)) as [_ Hperm].
    now apply (Permutation_in _ Hperm).
Qed.

Lemma rollup_bucket_values_witness :
  Fin 5 = sum (col Quantity_Delivered
                   (filter (in_bucket Category "B"%string) two_category_view)).
Proof.
  apply (proj2 (proj2 (proj2 (proj2 (rollup_bucket_values two_category_view))))
           "B"%string (Fin 5)).
  left. reflexivity.
Defined.

Lemma In_nodup_dropna {A : Type} (dec : forall x y : A, {x = y} + {x <> y})
      (s : list (option A)) (x : A) :
  In x (nodup dec (dropna s)) <-> In (Some x) s.
Proof. now rewrite nodup_In, In_dropna. Qed.

Lemma rollup_length {K V : Type} `{KeyLaws K}
      (dec : forall x y : K, {x = y} + {x <> y}) (agg : series -> V)
      (key : row -> option K) (val : row -> option Q) (df : frame) :
  length (groupby_agg agg (col key df) (col val df))
  = length (nodup dec (dropna (col key df))).
Proof.
  rewrite <- (length_map fst). apply Permutation_length.
  apply NoDup_Permutation.
  - apply sorted_keys_NoDup. apply (groupby_keys_ascending agg).
  - apply NoDup_nodup.
  - intros k. rewrite groupby_keys_observed, In_nodup_dropna.
    unfold col. rewrite in_map_iff. split; intros [r [? ?]]; eauto.
Qed.

(** X15: a rollup has exactly one bucket per distinct key of the view: the
    category rollups have as many buckets as the view has distinct
    categories, the rollups by order date as many as it has distinct order
    dates, and no key occurs twice. *)
Theorem one_bucket_per_key (fdf : frame) :
  length (Dashboard.df_category fdf) = nunique (col Category fdf)
  /\ length (Output.cat_perf fdf) = nunique (col Category fdf)
  /\ length (Dashboard.df_time fdf)
     = length (nodup Z.eq_dec (dropna (col Order_Date fdf)))
  /\ length (Output.inventory_trend fdf)
     = length (nodup Z.eq_dec (dropna (col Order_Date fdf)))
  /\ NoDup (map fst (Dashboard.df_category fdf))
  /\ NoDup (map fst (Output.cat_perf fdf))
  /\ NoDup (map fst (Dashboard.df_time fdf))
  /\ NoDup (map fst (Output.inventory_trend fdf)).
Proof.
  destruct (sort_values_desc_spec
              (groupby_agg sum (col Category fdf) (col Quantity_Delivered fdf))
              (groupby_sum_present _ _)) as [_ Hperm].
  repeat split.
  - apply (rollup_length string_dec).
  - unfold Output.cat_perf. rewrite (Permutation_length Hperm).
    apply (rollup_length string_dec).
  - apply (rollup_length Z.eq_dec).
  - apply (rollup_length Z.eq_dec).
  - apply sorted_keys_NoDup. apply (groupby_keys_ascending mean).
  - unfold Output.cat_perf.
    apply (Permutation_NoDup (Permutation_sym (Permutation_map fst Hperm))).
    apply sorted_keys_NoDup. apply (groupby_keys_ascending sum).
  - apply sorted_keys_NoDup. apply (groupby_keys_ascending mean).
  - apply sorted_keys_NoDup. apply (groupby_keys_ascending sum).
Qed.

(** *** Parts and whole *)

Lemma total_cons (x : Q) (l : list Q) : total (x :: l) = x + total l.
Proof. reflexivity. Qed.

Lemma total_app (l l' : list Q) : total (l ++ l') == total l + total l'.
Proof.
  induction l as [|x l IH]; cbn [app].
  - change (total []) with 0. ring.
  - rewrite !total_cons, IH. ring.
Qed.

Lemma dropna_app {A : Type} (s t : list (option A)) :
  dropna (s ++ t) = dropna s ++ dropna t.
Proof.
  induction s as [|[x|] s IH]; cbn [app dropna]; now rewrite ?IH.
Qed.

Lemma groups_total_cons {K : Type} (e : K * series) (g : list (K * series)) :
  groups_total (e :: g) = total (dropna (snd e)) + groups_total g.
Proof. reflexivity. Qed.

Lemma groups_total_add {K : Type} `{Key K} (k : K) (v : option Q)
      (g : list (K * series)) :
  groups_total (add_to_group k v g) == groups_total g + total (dropna [v]).
Proof.
  induction g as [|[k' vs] g IH]; cbn [add_to_group].
  - rewrite groups_total_cons. cbn [snd]. change (groups_total []) with 0.
    ring.
  - destruct (kcompare k k'); rewrite !groups_total_cons; cbn [snd].
    + rewrite dropna_app, total_app. ring.
    + ring.
    + rewrite IH. ring.
Qed.

Lemma groups_total_fold {K : Type} `{Key K}
      (kvs : list (option K * option Q)) :
  forall g : list (K * series),
    groups_total (fold_left add_row kvs g)
    == groups_total g
       + total (dropna (map snd (filter (fun kv => match fst kv with
                                                   | Some _ => true
                                                   | None => false
                                                   end) kvs))).
Proof.
  induction kvs as [|[[k|] v] kvs IH]; intros g;
    cbn [fold_left filter fst map snd].
  - change (total (dropna [])) with 0. ring.
  - rewrite IH. unfold add_row. cbn [fst snd]. rewrite groups_total_add.
    destruct v as [x|]; cbn [dropna]; rewrite ?total_cons;
      change (total []) with 0; ring.
  - rewrite IH. unfold add_row. cbn [fst]. reflexivity.
Qed.

Lemma total_perm (l l' : list Q) : Permutation l l' -> total l == total l'.
Proof.
  induction 1; rewrite ?total_cons.
  - reflexivity.
  - now rewrite IHPermutation.
  - ring.
  - now rewrite IHPermutation1.
Qed.

Lemma present_keys_of_frame (val : row -> option Q) (df : frame) :
  map snd (filter (fun kv : option string * option Q =>
                     match fst kv with
                     | Some _ => true
                     | None => false
                     end)
                  (combine (col Category df) (col val df)))
  = col val (filter has_category df).
Proof.
  unfold col, has_category.
  induction df as [|r df IH]; cbn [map combine filter fst snd];
    [reflexivity|].
  destruct (Category r); cbn [map snd]; now rewrite IH.
Qed.

(** X16: the buckets of [cat_perf] are numbers, and they add up to the
    delivered quantity of the records that carry a category; what the
    records without a category delivered is in no bucket. *)
Theorem category_parts_sum_to_whole (fdf : frame) :
  map snd (Output.cat_perf fdf)
  = map Fin (map finite_value (map snd (Output.cat_perf fdf)))
  /\ total (map finite_value (map snd (Output.cat_perf fdf)))
     == total (dropna (col Quantity_Delivered (filter has_category fdf))).
Proof.
  destruct (sort_values_desc_spec
              (groupby_agg sum (col Category fdf) (col Quantity_Delivered fdf))
              (groupby_sum_present _ _)) as [_ Hperm].
  fold (Output.cat_perf fdf) in Hperm. split.
  - rewrite !map_map. apply map_ext_in. intros x Hx.
    apply (Permutation_in _ Hperm) in Hx. unfold groupby_agg in Hx.
    apply in_map_iff in Hx. destruct Hx as [g [<- _]]. reflexivity.
  - rewrite (total_perm _ _
               (Permutation_map finite_value (Permutation_map snd Hperm))).
    unfold groupby_agg. rewrite !map_map. cbn [snd finite_value sum].
    change (total (map (fun e => total (dropna (snd e)))
                       (groups (col Category fdf)
                               (col Quantity_Delivered fdf))))
      with (groups_total (groups (col Category fdf)
                                 (col Quantity_Delivered fdf))).
    unfold groups. rewrite groups_total_fold, present_keys_of_frame.
    change (groups_total []) with 0. ring.
Qed.

(** ** The ingestors *)

Local Open Scope Z_scope.

(** X17: the catalog adapter never lets a request error escape: a network
    failure, an HTTP status from 400 to 599 and a request error raised while
    the body is decoded are all re-raised as a plain exception whose message
    starts with "API fetch failed: "; with another status the decoded body
    is returned as it is. *)
Theorem fetch_outcomes {Product : Type}
        (requests_get : string -> result (response Product)) :
  (forall m, fetch_fake_store_products requests_get
             <> Raise (RequestException m))
  /\ (forall m, requests_get FAKE_STORE_API_URL = Raise (RequestException m) ->
        fetch_fake_store_products requests_get
        = Raise (Exception ("API fetch failed: " ++ m)))
  /\ (forall r, requests_get FAKE_STORE_API_URL = Return r ->
        400 <= status_code r < 600 ->
        exists m, fetch_fake_store_products requests_get
                  = Raise (Exception ("API fetch failed: " ++ m)))
  /\ (forall r products,
        requests_get FAKE_STORE_API_URL = Return r ->
        status_code r < 400 \/ 600 <= status_code r ->
        json r = Return products ->
        fetch_fake_store_products requests_get = Return products).
Proof.
  unfold fetch_fake_store_products, raise_for_status. repeat split.
  - intros m. destruct (requests_get FAKE_STORE_API_URL) as [r|[]];
      try discriminate.
    destruct ((400 <=? status_code r) && (status_code r <? 600));
      try discriminate.
    destruct (json r) as [p|[]]; discriminate.
  - intros m ->. reflexivity.
  - intros r -> [H1 H2].
    apply Z.leb_le in H1. apply Z.ltb_lt in H2. rewrite H1, H2.
    eexists. reflexivity.
  - intros r products -> Hst ->.
    destruct ((400 <=? status_code r) && (status_code r <? 600)) eqn:E;
      [|reflexivity].
    apply andb_true_iff in E. destruct E as [H1 H2].
    apply Z.leb_le in H1. apply Z.ltb_lt in H2. lia.
Qed.

Lemma fetch_outcomes_witness :
  fetch_fake_store_products requests_down
  = Raise (Exception "API fetch failed: connection refused")
  /\ fetch_fake_store_products requests_ok
     = Return ["shirt"; "ring"]%string.
Proof.
  split.
  - apply (proj1 (proj2 (fetch_outcomes requests_down))). reflexivity.
  - apply (proj2 (proj2 (proj2 (fetch_outcomes requests_ok)))
             {| status_code := 200;
                json := Return ["shirt"; "ring"]%string |});
      [reflexivity | cbn; lia | reflexivity].
Defined.

(** X18: whatever goes wrong, the tabular-file adapter raises one of two
    errors: the missing-file error, exactly when the path does not exist,
    or its own plain exception, whose message carries the text of the cause
    (a parse failure, a sheet that is not in the workbook, an index out of
    range). *)
Theorem load_excel_data_errors {DataFrame : Type}
        (fs : filesystem DataFrame) (filepath : string) (sel : selector)
        (e : exn) :
  load_excel_data fs filepath sel = Raise e ->
  (path_exists fs filepath = false
   /\ e = FileNotFoundError ("File not found: " ++ filepath))
  \/ (path_exists fs filepath = true
      /\ exists cause,
           read_excel fs filepath (if truthy sel then sel else PyNone)
           = Raise cause
           /\ e = Exception ("Error loading Excel file: " ++ str cause)).
Proof.
  unfold load_excel_data. destruct (path_exists fs filepath); cbn [negb].
  - intros H. right. split; [reflexivity|].
    destruct (truthy sel);
      match type of H with
      | context [read_excel ?a ?b ?c] =>
          destruct (read_excel a b c) as [x|cause]; [discriminate|]
      end;
      exists cause; split; [reflexivity|congruence| reflexivity|congruence].
  - intros H. left. split; [reflexivity|congruence].
Qed.

Lemma load_excel_data_errors_witness :
  let e := Exception
             "Error loading Excel file: Worksheet named 'Sales' not found" in
  (path_exists fs_ok "data/Global_Superstore.xlsx" = false
   /\ e = FileNotFoundError "File not found: data/Global_Superstore.xlsx")
  \/ (path_exists fs_ok "data/Global_Superstore.xlsx" = true
      /\ exists cause,
           read_excel fs_ok "data/Global_Superstore.xlsx" (Name "Sales")
           = Raise cause
           /\ e = Exception ("Error loading Excel file: " ++ str cause)).
Proof.
  apply (load_excel_data_errors fs_ok "data/Global_Superstore.xlsx"
           (Name "Sales")).
  reflexivity.
Defined.

(** X19: with a selector that is truthy the adapter never returns the dict
    of all sheets: a sheet name gives the first sheet of that name, or the
    adapter's exception when no sheet has it; an index from 0 below the
    number of sheets gives the sheet at that position. *)
Theorem truthy_selector_selects_one_sheet {DataFrame : Type}
        (fs : filesystem DataFrame) (filepath : string) (sel : selector)
        (wb : workbook DataFrame) :
  truthy sel = true ->
  path_exists fs filepath = true ->
  open_workbook fs filepath = Return wb ->
  (forall sheets, load_excel_data fs filepath sel <> Return (Dict sheets))
  /\ (forall s, sel = Name s ->
        load_excel_data fs filepath sel
        = match sheet_by_name s wb with
          | Some df => Return (Frame df)
          | None =>
              Raise (Exception ("Error loading Excel file: Worksheet named '"
                                  ++ s ++ "' not found"))
          end)
  /\ (forall i name df, sel = Index i -> 0 <= i ->
        nth_error wb (Z.to_nat i) = Some (name, df) ->
        load_excel_data fs filepath sel = Return (Frame df)).
Proof.
  intros Ht He Hwb. unfold load_excel_data, read_excel.
  rewrite Ht, He, Hwb. cbn [negb]. repeat split.
  - intros sheets. destruct sel as [|s|i]; [discriminate| |].
    + destruct (sheet_by_name s wb); discriminate.
    + destruct (Z.of_nat (length wb) <=? i); [discriminate|].
      destruct (if 0 <=? i then nth_error wb (Z.to_nat i)
                else nth_error (rev wb) (Z.to_nat (- i - 1))) as [[? ?]|];
        discriminate.
  - intros s ->. now destruct (sheet_by_name s wb).
  - intros i name df -> Hi Hnth.
    assert (Hlen : (Z.to_nat i < length wb)%nat).
    { apply nth_error_Some. now rewrite Hnth. }
    destruct (Z.of_nat (length wb) <=? i) eqn:E1.
    + apply Z.leb_le in E1. lia.
    + apply Z.leb_le in Hi. now rewrite Hi, Hnth.
Qed.


Lemma truthy_selector_selects_one_sheet_witness :
  load_excel_data fs_ok "data/Global_Superstore.xlsx" (Name "Returns")
  = Return (Frame 1%nat)
  /\ load_excel_data fs_ok "data/Global_Superstore.xlsx" (Index 1)
     = Return (Frame 1%nat).
Proof.
  split.
  - apply (proj1 (proj2 (truthy_selector_selects_one_sheet fs_ok
                           "data/Global_Superstore.xlsx" (Name "Returns")
                           superstore eq_refl eq_refl eq_refl))
             "Returns"%string eq_refl).
  - apply (proj2 (proj2 (truthy_selector_selects_one_sheet fs_ok
                           "data/Global_Superstore.xlsx" (Index 1)
                           superstore eq_refl eq_refl eq_refl))
             1 "Returns"%string 1%nat eq_refl); [lia|reflexivity].
Defined.

(** ** The reports of the orchestrator *)

Section RunReports.

Context {DataFrame Product InventoryFrame : Type}.
Variable rows : DataFrame -> nat.
Variable inventory_rows : InventoryFrame -> nat.
Variable fs : filesystem DataFrame.
Variable requests_get : string -> result (response Product).
Variable simulate_inventory : list Product -> result InventoryFrame.

Let final : Main.state :=
  fst (main rows inventory_rows fs requests_get simulate_inventory initial).

Let excel : result (loaded DataFrame) :=
  load_excel_data fs "data/Global_Superstore.xlsx" (Name "Orders").

Let catalog : result (list Product) := fetch_fake_store_products requests_get.

Ltac unfold_run :=
  unfold final, excel, catalog, main, bind, try_except, call, print,
    assign_excel_data, assign_products, assign_inventory_df, read_products,
    initial in *;
  cbn [stdout invoked excel_data products inventory_df] in *.

Ltac settle :=
  repeat match goal with
         | H : ?c = _ |- context [?c] => rewrite H
         end;
  cbn [stdout invoked excel_data products inventory_df fst snd app];
  repeat match goal with
         | |- context [match ?c with Return _ => _ | Raise _ => _ end] =>
             destruct c;
             cbn [stdout invoked excel_data products inventory_df fst snd app]
         end.

(** X20: every run prints exactly eight lines: the start line, one
    announcement and one outcome line for each of the three steps, and the
    completion line. *)
Theorem run_prints_eight_lines : length (stdout final) = 8%nat.
Proof. unfold_run. settle; reflexivity. Qed.

(** X21: each step reports its own outcome.  A loaded workbook and a
    fetched catalog are kept and reported with their sizes; a failure of
    either is reported with the text of its exception; the simulation, when
    the catalog was fetched, is run on the fetched products and its frame or
    its exception is reported. *)
Theorem run_reports_each_source :
  (forall x, excel = Return x ->
     excel_data final = Some x
     /\ In ("Loaded " ++ str_of_nat (len rows x) ++ " Excel records.")%string
           (stdout final))
  /\ (forall e, excel = Raise e ->
     excel_data final = None
     /\ In ("Failed to load Excel data: " ++ str e)%string (stdout final))
  /\ (forall p, catalog = Return p ->
     products final = Some p
     /\ In ("Retrieved " ++ str_of_nat (length p) ++ " products.")%string
           (stdout final))
  /\ (forall e, catalog = Raise e ->
     products final = None
     /\ In ("Failed to fetch API data: " ++ str e)%string (stdout final))
  /\ (forall p inv, catalog = Return p -> simulate_inventory p = Return inv ->
     inventory_df final = Some inv
     /\ In ("Simulated inventory for " ++ str_of_nat (inventory_rows inv)
              ++ " records.")%string (stdout final))
  /\ (forall p e, catalog = Return p -> simulate_inventory p = Raise e ->
     inventory_df final = None
     /\ In ("Inventory simulation failed: " ++ str e)%string (stdout final)).
Proof.
  split; [|split; [|split; [|split; [|split]]]].
  - intros x0 Hx. unfold_run. settle; (split; [reflexivity|cbn [In]; auto 12]).
  - intros e0 He. unfold_run. settle; (split; [reflexivity|cbn [In]; auto 12]).
  - intros p0 Hp. unfold_run. settle; (split; [reflexivity|cbn [In]; auto 12]).
  - intros e0 He. unfold_run. settle; (split; [reflexivity|cbn [In]; auto 12]).
  - intros p0 inv0 Hp Hs. unfold_run. rewrite Hp.
    cbn [stdout invoked excel_data products inventory_df fst snd app].
    settle; (split; [reflexivity|cbn [In]; auto 12]).
  - intros p0 e0 Hp Hs. unfold_run. rewrite Hp.
    cbn [stdout invoked excel_data products inventory_df fst snd app].
    settle; (split; [reflexivity|cbn [In]; auto 12]).
Qed.

End RunReports.

Lemma run_reports_each_source_witness :
  In "Failed to fetch API data: API fetch failed: connection refused"%string
     (stdout (fst (main (fun n : nat => n) (fun n : nat => n) fs_ok
                        requests_down simulate_ok initial))).
Proof.
  destruct (run_reports_each_source (fun n : nat => n) (fun n : nat => n)
              fs_ok requests_down simulate_ok) as [_ [_ [_ [H _]]]].
  exact (proj2 (H (Exception "API fetch failed: connection refused") eq_refl)).
Defined.

(** ** The dashboard on generated data *)

Import SampleDashboard.

Lemma no_late_order (lead : list Z) :
  Forall (fun x => 1 <= x < 15) lead -> late_orders lead = 0%nat.
Proof.
  intros Hall. unfold late_orders. apply count_true_zero.
  intros b Hb. apply in_map_iff in Hb. destruct Hb as [x [<- Hx]].
  rewrite Forall_forall in Hall. specialize (Hall x Hx).
  apply Z.ltb_ge. lia.
Qed.

(** X24: with lead times drawn by [randint(1, 15, 100)] the alert on orders
    later than 14 days is never raised: the panel reports normal operation
    exactly when no inventory record is flagged, and otherwise shows the
    stockout warning alone. *)
Theorem late_order_alert_never_raised (lead : list Z) (risk : list bool) :
  randint 1 15 100 lead ->
  late_orders lead = 0%nat
  /\ (alert_panel lead risk = Success "All systems operating normally"
      <-> products_at_risk risk = 0%nat)
  /\ (products_at_risk risk <> 0%nat ->
      alert_panel lead risk
      = Warnings [(str_of_nat (products_at_risk risk)
                     ++ " products at risk of stockout")%string]).
Proof.
  intros [_ Hall]. pose proof (no_late_order lead Hall) as Hlate.
  split; [assumption|]. unfold alert_panel, alerts. rewrite Hlate.
  cbn [Nat.ltb Nat.leb app]. rewrite app_nil_r.
  destruct (products_at_risk risk) as [|n] eqn:E; cbn [Nat.ltb Nat.leb].
  - split; [split; reflexivity|]. intros H. now contradiction H.
  - split; [split; discriminate|]. reflexivity.
Qed.

Lemma late_order_alert_never_raised_witness :
  late_orders (repeat 14 100) = 0%nat.
Proof.
  apply (late_order_alert_never_raised (repeat 14 100) [true; false]).
  split; [reflexivity|]. apply Forall_forall. intros x Hx.
  apply repeat_spec in Hx. subst. lia.
Defined.

(** X25: with lead times drawn by [randint(1, 15, 100)] the average lead
    time that the dashboard shows is a number between 1 and 14. *)
Theorem average_lead_time_in_range (lead : list Z) :
  randint 1 15 100 lead ->
  exists q, average_lead_time lead = Fin q /\ (1 <= q)%Q /\ (q <= 14)%Q.
Proof.
  intros [Hlen Hall]. unfold average_lead_time, mean.
  assert (E : dropna (map (fun x => Some (inject_Z x)) lead)
              = map inject_Z lead).
  { clear. induction lead as [|x l IH]; cbn [map dropna]; now rewrite ?IH. }
  rewrite E. apply mean_values_bounds.
  - destruct lead; [discriminate Hlen|discriminate].
  - apply Forall_forall. intros q Hq. apply in_map_iff in Hq.
    destruct Hq as [x [<- Hx]]. rewrite Forall_forall in Hall.
    specialize (Hall x Hx).
    change 1%Q with (inject_Z 1). change 14%Q with (inject_Z 14).
    rewrite <- !Zle_Qle. lia.
Qed.

Lemma average_lead_time_in_range_witness :
  exists q, average_lead_time (repeat 14 100) = Fin q
            /\ (1 <= q)%Q /\ (q <= 14)%Q.
Proof.
  apply (average_lead_time_in_range (repeat 14 100)).
  split; [reflexivity|]. apply Forall_forall. intros x Hx.
  apply repeat_spec in Hx. subst. lia.
Defined.

Lemma counted_add {K : Type} `{Key K} (k : K) (v : option Q)
      (g : list (K * series)) :
  counted (add_to_group k v g) = S (counted g).
Proof.
  unfold counted.
  induction g as [|[k' vs] g IH]; cbn [add_to_group map fold_right snd length];
    [reflexivity|].
  destruct (kcompare k k'); cbn [map fold_right snd length].
  - rewrite length_app. cbn [length]. lia.
  - lia.
  - rewrite IH. lia.
Qed.

Lemma counted_fold (s : list Z) :
  forall g : list (Z * series),
    counted (fold_left add_row (combine (map Some s)
                                        (map (fun _ : Z => @None Q) s)) g)
    = (counted g + length s)%nat.
Proof.
  induction s as [|x s IH]; intros g; cbn [map combine fold_left length];
    [lia|].
  rewrite IH. unfold add_row. cbn [fst snd]. rewrite counted_add. lia.
Qed.

Lemma groups_nonempty {K : Type} `{Key K} (kvs : list (option K * option Q)) :
  forall g : list (K * series),
    Forall (fun e => snd e <> []) g ->
    Forall (fun e => snd e <> []) (fold_left add_row kvs g).
Proof.
  induction kvs as [|[[k|] v] kvs IH]; intros g Hg; cbn [fold_left];
    [assumption| |now apply IH].
  apply IH. unfold add_row. cbn [fst snd]. clear IH.
  induction Hg as [|[k' vs] g Hne Hg IHg]; cbn [add_to_group].
  - repeat constructor. discriminate.
  - destruct (kcompare k k').
    + constructor; [|assumption]. cbn [snd] in *. now destruct vs.
    + constructor; [discriminate|]. now constructor.
    + now constructor.
Qed.

(** X26: the bars of the lead-time distribution are listed by ascending
    lead time, every bar counts at least one order, and the bars add up to
    the number of orders. *)
Theorem lead_time_distribution_counts (lead : list Z) :
  keys_ascending (lead_time_counts lead)
  /\ Forall (fun bar => (1 <= snd bar)%nat) (lead_time_counts lead)
  /\ fold_right Nat.add 0%nat (map snd (lead_time_counts lead)) = length lead.
Proof.
  unfold lead_time_counts, value_counts. split; [|split].
  - apply (groupby_keys_ascending (@length (option Q))).
  - apply Forall_forall. intros bar Hbar. apply in_map_iff in Hbar.
    destruct Hbar as [g [<- Hg]]. cbn [snd].
    pose proof (groups_nonempty
                  (combine (map Some lead) (map (fun _ : Z => @None Q) lead))
                  [] (Forall_nil _)) as Hne.
    rewrite Forall_forall in Hne. specialize (Hne g Hg).
    destruct (snd g); [contradiction|cbn; lia].
  - rewrite map_map. cbn [snd]. unfold groups.
    exact (counted_fold lead []).
Qed.

(** ** The fields of the exported text *)


